(** * Barcode scanner: camera negotiation, scan session and HTTP trigger

    A shallow embedding of three pieces of the repository:

    - [Negotiation]: [initializeScanner] of the scanner component that tries
      a list of camera constraint options one after the other (the variant
      with [constraintOptions], [window.isSecureContext] and [cameraStatus]);
    - [Scanner]: the component [src/components/BarcodeScanner.tsx]
      ([initializeScanner], [startBarcodeScanning], the decode callback,
      [cleanup], [removeScannedCode], [retryScanning]) as an event-driven
      transition system, one transition per run-to-completion segment of
      JavaScript;
    - [HttpTrigger]: the Azure function [module.exports] that answers a
      posted barcode.

    Text that is only logged ([debugInfo], [console.*]) is left out of the
    component state; everything else a handler reads or writes is kept. *)

From Stdlib Require Import List String Bool Arith Lia ZArith.
From Stdlib Require Import DecimalString.
Import ListNotations.

Local Open Scope list_scope.
#[local] Set Warnings "-register-all".

(** ** Values shared by the two scanner models *)

(** A [MediaStream] handle, named by the order in which the browser
    granted it. *)
Definition Stream := nat.

(** A JavaScript [Error] object.  [getUserMedia] rejects with a
    [DOMException] or a [TypeError], and the video promise rejects with
    [new Error(...)]: every value that reaches a [catch] clause of the
    component is an [Error] object, so [err instanceof Error] holds and the
    value is truthy. *)
Record JsError := mkError { message : string }.

Definition settled_ok {A B : Type} (r : A + B) : bool :=
  match r with inl _ => true | inr _ => false end.

Definition failed {A B C : Type} (call : C * (A + B)) : Prop :=
  settled_ok (snd call) = false.

(** ** Camera negotiation with progressive constraints *)

Module Negotiation.

(** *** MediaStreamConstraints, as the literals of [constraintOptions] *)

Record Range := mkRange {
  range_min : option nat;
  range_ideal : option nat;
  range_max : option nat
}.

Inductive Facing :=
| FacingPlain (mode : string)          (* facingMode: 'environment' *)
| FacingIdeal (mode : string).         (* facingMode: { ideal: 'environment' } *)

Record VideoTrack := mkVideoTrack {
  facingMode : option Facing;
  width : option Range;
  height : option Range;
  frameRate : option Range
}.

Inductive VideoRequest :=
| VideoAny                             (* video: true *)
| VideoWith (t : VideoTrack).

Record Constraints := mkConstraints {
  video : VideoRequest;
  audio : bool
}.

Definition constraintOptions : list Constraints :=
  [ (* Option 1: Ideal settings *)
    mkConstraints
      (VideoWith (mkVideoTrack
         (Some (FacingIdeal "environment"))
         (Some (mkRange (Some 640) (Some 1280) (Some 1920)))
         (Some (mkRange (Some 480) (Some 720) (Some 1080)))
         (Some (mkRange None (Some 30) None))))
      false;
    (* Option 2: Fallback settings *)
    mkConstraints
      (VideoWith (mkVideoTrack
         (Some (FacingPlain "environment"))
         (Some (mkRange None (Some 1280) None))
         (Some (mkRange None (Some 720) None))
         None))
      false;
    (* Option 3: Basic settings *)
    mkConstraints
      (VideoWith (mkVideoTrack
         None
         (Some (mkRange None (Some 640) None))
         (Some (mkRange None (Some 480) None))
         None))
      false;
    (* Option 4: Minimal settings *)
    mkConstraints VideoAny false ].

(** *** The browser

    Everything outside the function is a world that is threaded through the
    awaits: a request for the camera takes the world to a new world and
    settles with a stream or with an error.  [isMountedRef.current] is
    written only by the mount effect and its clean-up, never by
    [initializeScanner], so it is read off the world as well. *)

Record Browser (World : Type) := mkBrowser {
  getUserMedia : Constraints -> World -> (Stream + JsError) * World;
  stopTracks : Stream -> World -> World;
  isMountedRef : World -> bool
}.

Arguments getUserMedia {World}.
Arguments stopTracks {World}.
Arguments isMountedRef {World}.

Record Env := mkEnv {
  isSecureContext : bool;              (* window.isSecureContext *)
  mediaDevices : bool;                 (* navigator.mediaDevices is defined *)
  mediaDevices_getUserMedia : bool     (* navigator.mediaDevices.getUserMedia is defined *)
}.

(** *** The constraint loop

    [let stream = null; let lastError = null;
     for (i = 0; i < constraintOptions.length; i++)
       try { stream = await getUserMedia(constraintOptions[i]); break; }
       catch (err) { lastError = err; continue; }]

    The result is the pair of locals [(stream, lastError)] at loop exit. *)

Fixpoint try_options {World : Type}
    (gum : Constraints -> World -> (Stream + JsError) * World)
    (options : list Constraints) (lastError : option JsError) (w : World)
  : option Stream * option JsError * World :=
  match options with
  | [] => (None, lastError, w)
  | c :: rest =>
      match gum c w with
      | (inl stream, w') => (Some stream, lastError, w')
      | (inr err, w') => try_options gum rest (Some err) w'
      end
  end.

Definition all_options_failed : JsError :=
  mkError "Failed to access camera with all constraint options".

(** The loop followed by
    [if (!stream) throw lastError || new Error('Failed to access ...')]:
    [inl] is the granted stream, [inr] the thrown value. *)
Definition acquire {World : Type}
    (gum : Constraints -> World -> (Stream + JsError) * World)
    (options : list Constraints) (w : World)
  : (Stream + JsError) * World :=
  match try_options gum options None w with
  | (Some stream, _, w') => (inl stream, w')
  | (None, Some lastError, w') => (inr lastError, w')
  | (None, None, w') => (inr all_options_failed, w')
  end.

(** *** [initializeScanner], up to the point where the stream is owned *)

Inductive CameraStatus :=
| Initializing | Requesting | Granted | Loading | Ready | StatusError.

Record Component := mkComponent {
  isInitializedRef : bool;
  streamRef : option Stream;
  cameraStatus : CameraStatus;
  hasPermission : option bool;
  error : string
}.

Definition initial : Component :=
  mkComponent false None Initializing None "".

Inductive Exit :=
| NotStarted                           (* the guard returned *)
| Surfaced (err : JsError)             (* catch clause, error state set *)
| Dropped (err : JsError)              (* catch clause, unmounted: return *)
| ReleasedLate (stream : Stream)       (* granted after unmount: tracks stopped *)
| Owned (stream : Stream).             (* streamRef.current = stream *)

Definition insecure_context : JsError :=
  mkError "Camera requires HTTPS connection".

Definition camera_api_missing : JsError :=
  mkError "Camera API not available in this browser".

(** The [catch (err)] clause of [initializeScanner]. *)
Definition on_error {World : Type} (b : Browser World)
    (err : JsError) (c : Component) (w : World) : Component * World * Exit :=
  if negb (isMountedRef b w) then (c, w, Dropped err)
  else
    (mkComponent false (streamRef c) StatusError (Some false)
       ("Camera initialization failed: " ++ message err)%string,
     w, Surfaced err).

(** [initializeScanner] from its guard to [setHasPermission(true)], with
    its [catch] clause.  The set-up of the video element that follows an
    owned stream is the [Owned] exit here.  The component's own fields are
    threaded through; of what other handlers may write during the awaits
    the function reads back [isMountedRef] only, and that comes from the
    world.  The component returned is [c] with the writes of this call:
    what [cleanup] writes when it runs during an await (at a retry click
    or at unmount it clears [isInitializedRef] and [streamRef]) is not in
    it. *)
Definition initializeScanner {World : Type} (b : Browser World) (env : Env)
    (options : list Constraints) (c : Component) (w : World)
  : Component * World * Exit :=
  if isInitializedRef c || negb (isMountedRef b w) then (c, w, NotStarted)
  else
    let c1 := mkComponent true (streamRef c) Initializing (hasPermission c) "" in
    if negb (isSecureContext env) then on_error b insecure_context c1 w
    else if negb (mediaDevices env) || negb (mediaDevices_getUserMedia env)
    then on_error b camera_api_missing c1 w
    else
      let c2 := mkComponent true (streamRef c1) Requesting (hasPermission c1) "" in
      match acquire (getUserMedia b) options w with
      | (inr err, w') => on_error b err c2 w'
      | (inl stream, w') =>
          if negb (isMountedRef b w') then (c2, stopTracks b stream w', ReleasedLate stream)
          else
            (mkComponent true (Some stream) Granted (Some true) "", w', Owned stream)
      end.

(** *** Observing the requests

    A browser that, besides answering, writes every request and its
    settlement to a journal kept next to the world. *)

Definition Call : Type := Constraints * (Stream + JsError).

Definition recording {World : Type}
    (gum : Constraints -> World -> (Stream + JsError) * World)
    (c : Constraints) (wj : World * list Call)
  : (Stream + JsError) * (World * list Call) :=
  match gum c (fst wj) with
  | (r, w') => (r, (w', snd wj ++ [(c, r)]))
  end.

Definition recording_browser {World : Type} (b : Browser World)
  : Browser (World * list Call) :=
  mkBrowser (World * list Call)
    (recording (getUserMedia b))
    (fun s wj => (stopTracks b s (fst wj), snd wj))
    (fun wj => isMountedRef b (fst wj)).

(** The shape of the journal a run of the loop leaves behind: the requests
    are an initial segment of the options, in their order; a run that ends
    with a stream made that request last, after failures only; a run that
    ends without one asked for every option and keeps the error of the
    last request. *)
Definition loop_journal (options : list Constraints) (lastError : option JsError)
    (stream : option Stream) (lastError' : option JsError) (calls : list Call) : Prop :=
  (exists n, map fst calls = firstn n options) /\
  match stream with
  | Some s =>
      exists pre c, calls = pre ++ [(c, inl s)] /\ Forall failed pre
  | None =>
      Forall failed calls /\ map fst calls = options /\
      ((calls = [] /\ options = [] /\ lastError' = lastError) \/
       (exists pre_options c pre e,
           options = pre_options ++ [c] /\ calls = pre ++ [(c, inr e)] /\
           lastError' = Some e))
  end.

(** *** Three browsers for examples; the world counts the requests made *)

Definition permission_denied : JsError := mkError "Permission denied".

Definition granting_browser : Browser nat :=
  mkBrowser nat (fun _ n => (inl n, S n)) (fun _ n => n) (fun _ => true).

Definition denying_browser : Browser nat :=
  mkBrowser nat (fun _ n => (inr permission_denied, S n)) (fun _ n => n) (fun _ => true).

(** Rejects the first two requests as over-constrained, grants the third. *)
Definition picky_browser : Browser nat :=
  mkBrowser nat
    (fun _ n => if n <? 2 then (inr (mkError "Constraints could not be satisfied"), S n)
                else (inl n, S n))
    (fun _ n => n) (fun _ => true).

End Negotiation.

(** ** The scanner component as a transition system *)

Module Scanner.

(** *** Component state: the refs and the React state of [BarcodeScanner] *)

(** [BrowserMultiFormatReader]: all the component sees of it is whether
    [decodeFromVideoDevice] has been started on it.  What the library does
    inside that call - it opens a camera stream of its own, shows it in the
    video element it was given and stops it in [reset()] - is the
    library's and is not modelled: the streams below are those of the
    component's own requests, and [srcObject] is what the component last
    assigned. *)
Record CodeReader := mkCodeReader { decoding : bool }.

(** The [<video>] element behind [videoRef]. *)
Record Video := mkVideo { srcObject : option Stream }.

Record Component := mkComponent {
  (* refs *)
  isMountedRef : bool;
  isInitializedRef : bool;
  codeReaderRef : option CodeReader;
  streamRef : option Stream;
  videoRef : option Video;
  scanIntervalRef : option nat;
  (* React state *)
  isScanning : bool;
  error : string;
  hasPermission : option bool;
  scannedCodes : list string;
  lastScannedCode : string;
  scanAttempts : nat;
  videoReady : bool
}.

Definition set_isMountedRef (v : bool) (c : Component) : Component :=
  let 'mkComponent _ f2 f3 f4 f5 f6 f7 f8 f9 f10 f11 f12 f13 := c in
  mkComponent v f2 f3 f4 f5 f6 f7 f8 f9 f10 f11 f12 f13.

Definition set_isInitializedRef (v : bool) (c : Component) : Component :=
  let 'mkComponent f1 _ f3 f4 f5 f6 f7 f8 f9 f10 f11 f12 f13 := c in
  mkComponent f1 v f3 f4 f5 f6 f7 f8 f9 f10 f11 f12 f13.

Definition set_codeReaderRef (v : option CodeReader) (c : Component) : Component :=
  let 'mkComponent f1 f2 _ f4 f5 f6 f7 f8 f9 f10 f11 f12 f13 := c in
  mkComponent f1 f2 v f4 f5 f6 f7 f8 f9 f10 f11 f12 f13.

Definition set_streamRef (v : option Stream) (c : Component) : Component :=
  let 'mkComponent f1 f2 f3 _ f5 f6 f7 f8 f9 f10 f11 f12 f13 := c in
  mkComponent f1 f2 f3 v f5 f6 f7 f8 f9 f10 f11 f12 f13.

Definition set_videoRef (v : option Video) (c : Component) : Component :=
  let 'mkComponent f1 f2 f3 f4 _ f6 f7 f8 f9 f10 f11 f12 f13 := c in
  mkComponent f1 f2 f3 f4 v f6 f7 f8 f9 f10 f11 f12 f13.

Definition set_scanIntervalRef (v : option nat) (c : Component) : Component :=
  let 'mkComponent f1 f2 f3 f4 f5 _ f7 f8 f9 f10 f11 f12 f13 := c in
  mkComponent f1 f2 f3 f4 f5 v f7 f8 f9 f10 f11 f12 f13.

Definition set_isScanning (v : bool) (c : Component) : Component :=
  let 'mkComponent f1 f2 f3 f4 f5 f6 _ f8 f9 f10 f11 f12 f13 := c in
  mkComponent f1 f2 f3 f4 f5 f6 v f8 f9 f10 f11 f12 f13.

Definition set_error (v : string) (c : Component) : Component :=
  let 'mkComponent f1 f2 f3 f4 f5 f6 f7 _ f9 f10 f11 f12 f13 := c in
  mkComponent f1 f2 f3 f4 f5 f6 f7 v f9 f10 f11 f12 f13.

Definition set_hasPermission (v : option bool) (c : Component) : Component :=
  let 'mkComponent f1 f2 f3 f4 f5 f6 f7 f8 _ f10 f11 f12 f13 := c in
  mkComponent f1 f2 f3 f4 f5 f6 f7 f8 v f10 f11 f12 f13.

Definition set_scannedCodes (v : list string) (c : Component) : Component :=
  let 'mkComponent f1 f2 f3 f4 f5 f6 f7 f8 f9 _ f11 f12 f13 := c in
  mkComponent f1 f2 f3 f4 f5 f6 f7 f8 f9 v f11 f12 f13.

Definition set_lastScannedCode (v : string) (c : Component) : Component :=
  let 'mkComponent f1 f2 f3 f4 f5 f6 f7 f8 f9 f10 _ f12 f13 := c in
  mkComponent f1 f2 f3 f4 f5 f6 f7 f8 f9 f10 v f12 f13.

Definition set_scanAttempts (v : nat) (c : Component) : Component :=
  let 'mkComponent f1 f2 f3 f4 f5 f6 f7 f8 f9 f10 f11 _ f13 := c in
  mkComponent f1 f2 f3 f4 f5 f6 f7 f8 f9 f10 f11 v f13.

Definition set_videoReady (v : bool) (c : Component) : Component :=
  let 'mkComponent f1 f2 f3 f4 f5 f6 f7 f8 f9 f10 f11 f12 _ := c in
  mkComponent f1 f2 f3 f4 f5 f6 f7 f8 f9 f10 f11 f12 v.

(** A call of a [useState] setter.  React drops updates to a component
    that is no longer mounted; [isMountedRef] is cleared by the clean-up of
    the mount effect, which React runs when it unmounts the component, so
    the ref is the component's mounted status. *)
Definition setState (update : Component -> Component) (c : Component) : Component :=
  if isMountedRef c then update c else c.

(** The values of the hooks at the first render:
    [useRef(true)] for [isMountedRef], [useRef(false)] for
    [isInitializedRef], [useRef(null)] for the others; [videoRef] is null
    because the [<video>] element is rendered only once [hasPermission]
    is true. *)
Definition first_render : Component :=
  mkComponent true false None None None None
              false "" None [] "" 0 false.

(** *** The rest of the system: camera hardware, suspended calls, timers *)

(** Where a call of [initializeScanner] (or of the play-retry callback) is
    suspended. *)
Inductive Await :=
| AwaitGetUserMedia            (* await navigator.mediaDevices.getUserMedia(constraints) *)
| AwaitVideoLoad               (* await new Promise(...) on the video events *)
| AwaitPlay                    (* await video.play() *)
| AwaitPlayRetry.              (* await video.play() inside the 1000 ms retry *)

Inductive Timer :=
| RetryTimer                   (* retryScanning: setTimeout(..., 1000) *)
| StartScanningTimer           (* initializeScanner: setTimeout(startBarcodeScanning, 1000) *)
| PlayRetryTimer.              (* initializeScanner: setTimeout(async () => video.play(), 1000) *)

(** The page the component runs in.  With a legacy root
    ([ReactDOM.render], React 17 and earlier) a state update made outside a
    React event handler is rendered at once; with [createRoot] updates are
    batched and rendered after the handler. *)
Record Page := mkPage {
  mediaDevices : bool;         (* navigator.mediaDevices is defined *)
  legacyRoot : bool
}.

Record System := mkSystem {
  comp : Component;
  liveStreams : list Stream;   (* streams granted to initializeScanner's requests
                                  whose tracks have not been stopped *)
  nextStream : Stream;         (* the handle the next grant will get *)
  pending : list Await;
  timers : list Timer;
  page : Page
}.

Definition set_comp (c : Component) (s : System) : System :=
  mkSystem c (liveStreams s) (nextStream s) (pending s) (timers s) (page s).

Definition set_liveStreams (l : list Stream) (s : System) : System :=
  mkSystem (comp s) l (nextStream s) (pending s) (timers s) (page s).

Definition set_pending (p : list Await) (s : System) : System :=
  mkSystem (comp s) (liveStreams s) (nextStream s) p (timers s) (page s).

Definition set_timers (t : list Timer) (s : System) : System :=
  mkSystem (comp s) (liveStreams s) (nextStream s) (pending s) t (page s).

Definition update (f : Component -> Component) (s : System) : System :=
  set_comp (f (comp s)) s.

Definition suspend (a : Await) (s : System) : System :=
  set_pending (pending s ++ [a]) s.

Definition setTimeout (t : Timer) (s : System) : System :=
  set_timers (timers s ++ [t]) s.

Fixpoint drop_nth {A : Type} (i : nat) (l : list A) : list A :=
  match l, i with
  | [], _ => []
  | _ :: r, 0 => r
  | x :: r, S j => x :: drop_nth j r
  end.

(** The browser grants a stream: it gets the next handle and its tracks
    are live. *)
Definition grant (s : System) : System :=
  mkSystem (comp s) (liveStreams s ++ [nextStream s]) (S (nextStream s))
           (pending s) (timers s) (page s).

(** [stream.getTracks().forEach(track => track.stop())] *)
Definition stop_tracks (stream : Stream) (s : System) : System :=
  set_liveStreams (filter (fun x => negb (x =? stream)) (liveStreams s)) s.

(** *** [cleanup] *)

Definition cleanup (s : System) : System :=
  let s1 :=
    update (fun c => setState (set_videoReady false)
                       (setState (set_isScanning false)
                          (set_isInitializedRef false c))) s in
  (* Clear scan interval *)
  let s2 := update (set_scanIntervalRef None) s1 in
  (* Stop code reader: reset() inside try/catch, then the ref is cleared *)
  let s3 := update (set_codeReaderRef None) s2 in
  (* Stop video stream *)
  let s4 :=
    match streamRef (comp s3) with
    | Some stream => update (set_streamRef None) (stop_tracks stream s3)
    | None => s3
    end in
  (* Clear video element *)
  match videoRef (comp s4) with
  | Some _ => update (set_videoRef (Some (mkVideo None))) s4
  | None => s4
  end.

(** *** [initializeScanner], one definition per segment between awaits *)

(** [navigator.mediaDevices.getUserMedia] when [navigator.mediaDevices] is
    undefined: the property read raises a [TypeError] (wording of V8). *)
Definition mediaDevices_undefined : JsError :=
  mkError "Cannot read properties of undefined (reading 'getUserMedia')".

(** The [catch (err)] clause. *)
Definition on_error (err : JsError) (c : Component) : Component :=
  if negb (isMountedRef c) then c
  else
    setState (set_error ("Camera initialization failed: " ++ message err)%string)
      (setState (set_hasPermission (Some false))
         (set_isInitializedRef false c)).

(** From the call to the first await. *)
Definition initializeScanner (s : System) : System :=
  if isInitializedRef (comp s) || negb (isMountedRef (comp s)) then s
  else
    let s1 :=
      update (fun c => set_codeReaderRef (Some (mkCodeReader false))
                         (setState (set_error "")
                            (set_isInitializedRef true c))) s in
    if mediaDevices (page s1) then suspend AwaitGetUserMedia s1
    else update (on_error mediaDevices_undefined) s1.

(** React commits a render:
    [{hasPermission && (<video ref={videoRef} ... />)}]. *)
Definition render (c : Component) : Component :=
  if negb (isMountedRef c) then c
  else
    match hasPermission c, videoRef c with
    | Some true, None => set_videoRef (Some (mkVideo None)) c
    | Some true, Some _ => c
    | _, _ => set_videoRef None c
    end.

(** [getUserMedia] resolved: lines 69-126, up to the await on the video
    events.  The stream is the one the browser has just granted.  Under a
    legacy root [setHasPermission(true)] has rendered the video element by
    the time [videoRef.current] is read. *)
Definition after_getUserMedia (stream : Stream) (s : System) : System :=
  if negb (isMountedRef (comp s)) then stop_tracks stream s
  else
    let s1 :=
      update (fun c => setState (set_hasPermission (Some true))
                         (set_streamRef (Some stream) c)) s in
    let s2 := if legacyRoot (page s1) then update render s1 else s1 in
    match videoRef (comp s2) with
    | Some _ =>
        suspend AwaitVideoLoad
          (update (set_videoRef (Some (mkVideo (Some stream)))) s2)
    | None => s2
    end.

(** The promise on the video events resolved: line 128, then
    [await video.play()]. *)
Definition after_video_load (s : System) : System :=
  if negb (isMountedRef (comp s)) then s else suspend AwaitPlay s.

(** [`Video loading failed: ${error.message || 'Unknown error'}`] *)
Definition video_loading_failed (msg : option string) : JsError :=
  mkError ("Video loading failed: " ++
           match msg with
           | Some m => if (m =? "")%string then "Unknown error" else m
           | None => "Unknown error"
           end)%string.

(** Lines 152-162, after the inner try/catch around [video.play()]. *)
Definition start_scanning_soon (s : System) : System :=
  if negb (isMountedRef (comp s)) then s
  else setTimeout StartScanningTimer (update (setState (set_isScanning true)) s).

Definition after_play (resolved : bool) (s : System) : System :=
  if resolved
  then start_scanning_soon (update (setState (set_videoReady true)) s)
  else start_scanning_soon (setTimeout PlayRetryTimer s).

(** *** [startBarcodeScanning] and the decode callback *)

Definition startBarcodeScanning (s : System) : System :=
  let c := comp s in
  match codeReaderRef c, videoRef c with
  | Some _, Some _ =>
      if negb (isMountedRef c) then s
      else update (set_codeReaderRef (Some (mkCodeReader true))) s
  | _, _ => s
  end.

Record DecodeResult := mkResult {
  getText : string;
  getBarcodeFormat : nat
}.

Definition includes (l : list string) (v : string) : bool :=
  existsb (String.eqb v) l.

(** [prev => prev.includes(scannedValue) ? prev : [...prev, scannedValue]] *)
Definition add_if_absent (scannedValue : string) (prev : list string) : list string :=
  if negb (includes prev scannedValue) then prev ++ [scannedValue] else prev.

(** The callback [(result, error) => ...] given to [decodeFromVideoDevice]. *)
Definition on_decode (result : option DecodeResult) (err : option JsError)
    (c : Component) : Component :=
  if negb (isMountedRef c) then c
  else
    let c1 := setState (fun c => set_scanAttempts (scanAttempts c + 1) c) c in
    match result with
    | Some r =>
        let scannedValue := getText r in
        setState (fun c => set_scannedCodes (add_if_absent scannedValue (scannedCodes c)) c)
          (setState (set_lastScannedCode scannedValue) c1)
    | None => c1
    end.

(** *** The buttons *)

Fixpoint filter_index {A : Type} (keep : nat -> bool) (from : nat) (l : list A) : list A :=
  match l with
  | [] => []
  | x :: r =>
      if keep from then x :: filter_index keep (S from) r
      else filter_index keep (S from) r
  end.

(** [setScannedCodes(prev => prev.filter((_, i) => i !== index))] *)
Definition removeScannedCode (index : nat) (c : Component) : Component :=
  setState (fun c => set_scannedCodes
                       (filter_index (fun i => negb (i =? index)) 0 (scannedCodes c)) c) c.

(** [retryScanning]: the synchronous part; the callback is [RetryTimer]. *)
Definition retryScanning (s : System) : System :=
  setTimeout RetryTimer (cleanup s).

(** *** Events

    What the browser, React and the user can do to the component.  An
    event that names a suspended call or a timer that is not there does
    nothing.  Decode deliveries are accepted at any time, also from a
    reader that has been reset.  [handleFinishScanning] only hands
    [scannedCodes] to the parent and is not an event. *)

Inductive Event :=
| Unmount                                   (* React runs the clean-up of the mount effect *)
| GetUserMediaResolved (i : nat)            (* pending call i is granted a stream *)
| GetUserMediaRejected (i : nat) (err : JsError)
| VideoLoadResolved (i : nat)               (* onSuccess, by an event or by the 3000 ms check *)
| VideoLoadRejected (i : nat) (msg : option string)
| PlaySettled (i : nat) (resolved : bool)
| PlayRetrySettled (i : nat) (resolved : bool)
| TimerFired (i : nat) (paused : bool)      (* paused: video.paused, read by the play retry *)
| VideoDataLoaded                           (* onLoadedData of the video element *)
| Decoded (result : option DecodeResult) (err : option JsError)
| RemoveClicked (index : nat)
| RetryClicked.

Definition resume (i : nat) (a : Await) (k : System -> System) (s : System) : System :=
  match nth_error (pending s) i with
  | Some a' =>
      match a, a' with
      | AwaitGetUserMedia, AwaitGetUserMedia
      | AwaitVideoLoad, AwaitVideoLoad
      | AwaitPlay, AwaitPlay
      | AwaitPlayRetry, AwaitPlayRetry => k (set_pending (drop_nth i (pending s)) s)
      | _, _ => s
      end
  | None => s
  end.

Definition fire (t : Timer) (paused : bool) (s : System) : System :=
  match t with
  | RetryTimer =>
      if isMountedRef (comp s) then initializeScanner s else s
  | StartScanningTimer =>
      if isMountedRef (comp s) then startBarcodeScanning s else s
  | PlayRetryTimer =>
      (* if (video && !video.paused) return; await video.play(); *)
      if negb paused then s else suspend AwaitPlayRetry s
  end.

Definition handle (e : Event) (s : System) : System :=
  match e with
  | Unmount =>
      (* the effect clean-up; the video element is taken to be still behind
         videoRef, so that cleanup clears it *)
      cleanup (update (set_isMountedRef false) s)
  | GetUserMediaResolved i =>
      resume i AwaitGetUserMedia (fun s => after_getUserMedia (nextStream s) (grant s)) s
  | GetUserMediaRejected i err =>
      resume i AwaitGetUserMedia (update (on_error err)) s
  | VideoLoadResolved i => resume i AwaitVideoLoad after_video_load s
  | VideoLoadRejected i msg =>
      resume i AwaitVideoLoad (update (on_error (video_loading_failed msg))) s
  | PlaySettled i resolved => resume i AwaitPlay (after_play resolved) s
  | PlayRetrySettled i _ =>
      (* both the try and the catch end in setVideoReady(true) *)
      resume i AwaitPlayRetry (update (setState (set_videoReady true))) s
  | TimerFired i paused =>
      match nth_error (timers s) i with
      | Some t => fire t paused (set_timers (drop_nth i (timers s)) s)
      | None => s
      end
  | VideoDataLoaded =>
      match videoRef (comp s) with
      | Some _ => update (setState (set_videoReady true)) s
      | None => s
      end
  | Decoded result err => update (on_decode result err) s
  | RemoveClicked index => update (removeScannedCode index) s
  | RetryClicked => retryScanning s
  end.

(** A handler, then the render that follows it. *)
Definition step (e : Event) (s : System) : System :=
  update render (handle e s).

Definition run (events : list Event) (s : System) : System :=
  fold_left (fun s e => step e s) events s.

(** The mount effect: [isMountedRef.current = true; initializeScanner()]. *)
Definition mount (page : Page) : System :=
  update render
    (initializeScanner
       (update (set_isMountedRef true)
          (mkSystem first_render [] 0 [] [] page))).

(** *** The operations of a session, as calls *)

Inductive Operation :=
| Start                                     (* initializeScanner() *)
| Stop                                      (* cleanup() *)
| Retry                                     (* retryScanning() *)
| DeliverDecode (result : option DecodeResult) (err : option JsError).

Inductive Completion :=
| Returned
| Raised (err : JsError).

(** None of the four has a [throw]; the only calls that can raise
    ([getUserMedia], the video promise, [play], [reset]) sit inside
    try/catch, so each call completes normally. *)
Definition invoke (op : Operation) (s : System) : System * Completion :=
  match op with
  | Start => (initializeScanner s, Returned)
  | Stop => (cleanup s, Returned)
  | Retry => (retryScanning s, Returned)
  | DeliverDecode result err => (update (on_decode result err) s, Returned)
  end.

(** What the claims call the session state: refs, React state and the
    camera streams that are live. *)
Definition session (s : System) : Component * list Stream :=
  (comp s, liveStreams s).

(** A stream is leaked when its tracks are live and the component holds no
    reference through which [cleanup] could stop them. *)
Definition leaked (stream : Stream) (s : System) : Prop :=
  In stream (liveStreams s) /\ streamRef (comp s) <> Some stream.

(** *** Notions used to state the properties *)

(** Every live stream was granted before the next handle. *)
Definition handles_fresh (s : System) : Prop :=
  Forall (fun x => x < nextStream s) (liveStreams s).

(** What the decode callback accumulates. *)
Definition results (c : Component) : list string * string * nat :=
  (scannedCodes c, lastScannedCode c, scanAttempts c).

(** Events that are neither a decode delivery nor a removal. *)
Definition keeps_results (e : Event) : bool :=
  match e with
  | Decoded _ _ | RemoveClicked _ => false
  | _ => true
  end.

(** The texts of the attempts that produced a result, in delivery order. *)
Fixpoint decoded_texts (attempts : list (option DecodeResult * option JsError))
  : list string :=
  match attempts with
  | [] => []
  | (Some r, _) :: rest => getText r :: decoded_texts rest
  | (None, _) :: rest => decoded_texts rest
  end.

Definition deliveries (attempts : list (option DecodeResult * option JsError))
  : list Event :=
  map (fun a => Decoded (fst a) (snd a)) attempts.

(** The distinct texts of a list, each at the place of its first
    occurrence. *)
Fixpoint first_seen (texts : list string) : list string :=
  match texts with
  | [] => []
  | t :: rest => t :: filter (fun u => negb (String.eqb u t)) (first_seen rest)
  end.

(** Every live stream is the one in [streamRef], where [cleanup] will
    find it. *)
Definition every_live_stream_owned (s : System) : Prop :=
  forall stream, In stream (liveStreams s) -> streamRef (comp s) = Some stream.

Definition is_grant (e : Event) : bool :=
  match e with
  | GetUserMediaResolved _ => true
  | _ => false
  end.

(** A run in which every grant arrives while no stream is live. *)
Fixpoint grants_find_no_live_stream (events : list Event) (s : System) : Prop :=
  match events with
  | [] => True
  | e :: rest =>
      (if is_grant e then liveStreams s = [] else True) /\
      grants_find_no_live_stream rest (step e s)
  end.

(** The component after its clean-up at unmount: not mounted and nothing
    held. *)
Definition disposed (c : Component) : Prop :=
  isMountedRef c = false /\ isInitializedRef c = false /\
  codeReaderRef c = None /\ streamRef c = None /\ scanIntervalRef c = None /\
  (videoRef c = None \/ videoRef c = Some (mkVideo None)).

(** *** Examples *)

Definition scan (text : string) : option DecodeResult * option JsError :=
  (Some (mkResult text 0), None).

Definition nothing_found : option DecodeResult * option JsError :=
  (None, Some (mkError "No MultiFormat Readers were able to detect the code.")).

Definition example_attempts : list (option DecodeResult * option JsError) :=
  [scan "123"; nothing_found; scan "123"; scan "456"].

(** Denied once, then retried twice while the permission prompt of the
    first retry is still open, then both requests granted:
    "Try Again" stays on screen as long as [hasPermission] is false. *)
Definition overlapping_retries : list Event :=
  [ GetUserMediaRejected 0 (mkError "Permission dismissed");
    RetryClicked; TimerFired 0 false;      (* second request, pending *)
    RetryClicked; TimerFired 0 false;      (* third request, pending as well *)
    GetUserMediaResolved 0;                (* stream 0 *)
    GetUserMediaResolved 0;                (* stream 1 *)
    VideoLoadResolved 0;
    PlaySettled 0 true ].

(** A browser with the camera API, React with [createRoot]. *)
Definition modern : Page := mkPage true false.

(** The same under a legacy root. *)
Definition legacy : Page := mkPage true true.

(** The same clicks under a legacy root: the video element is there when
    stream 0 arrives, so the call that acquired it is still suspended when
    stream 1 replaces it. *)
Definition overlapping_retries_legacy : list Event :=
  [ GetUserMediaRejected 0 (mkError "Permission dismissed");
    RetryClicked; TimerFired 0 false;
    RetryClicked; TimerFired 0 false;
    GetUserMediaResolved 0;                (* stream 0, attached to the video *)
    GetUserMediaResolved 0;                (* stream 1, attached in its place *)
    VideoLoadResolved 0; VideoLoadResolved 0;
    PlaySettled 0 true; PlaySettled 0 true ].

(** Camera granted on mount, then one code scanned. *)
Definition one_code_scanned : System :=
  run [GetUserMediaResolved 0; Decoded (Some (mkResult "123" 0)) None] (mount modern).

(** Unmounted while the first camera request is in flight. *)
Definition disposed_in_flight : System :=
  run [Unmount] (mount modern).

End Scanner.

(** ** The HTTP trigger *)

Module HttpTrigger.

Section Values.

(** JavaScript numbers are kept abstract: all the handler does with one is
    test its truthiness and print it into a template literal. *)
Variable Num : Type.
Variable num_truthy : Num -> bool.          (* false exactly for 0, -0 and NaN *)
Variable num_to_string : Num -> string.     (* Number.prototype.toString *)

(** The value found in [req.body]: nothing ([JUndefined]), a raw string, or
    parsed JSON. *)
Inductive JsValue :=
| JUndefined
| JNull
| JBool (b : bool)
| JNum (n : Num)
| JStr (s : string)
| JArr (items : list JsValue)
| JObj (fields : list (string * JsValue)).

(** ToBoolean *)
Definition truthy (v : JsValue) : bool :=
  match v with
  | JUndefined | JNull => false
  | JBool b => b
  | JNum n => num_truthy n
  | JStr s => negb (s =? "")%string
  | JArr _ | JObj _ => true
  end.

Fixpoint lookup (key : string) (fields : list (string * JsValue)) : JsValue :=
  match fields with
  | [] => JUndefined
  | (k, v) :: rest => if (k =? key)%string then v else lookup key rest
  end.

(** [body.barcode] for a body that passed [!body]: only an object has such
    a property; on a string, number, boolean or array the read gives
    [undefined]. *)
Definition barcode_of (body : JsValue) : JsValue :=
  match body with
  | JObj fields => lookup "barcode" fields
  | _ => JUndefined
  end.

(** [key] is an own property of the object. *)
Fixpoint has_key (key : string) (fields : list (string * JsValue)) : bool :=
  match fields with
  | [] => false
  | (k, _) :: rest => (k =? key)%string || has_key key rest
  end.

(** ToString, as applied by the template literal; [None] where it throws a
    TypeError. An object goes through ToPrimitive with hint string: its
    [toString] is called if callable, else its [valueOf]. No JSON value is
    callable, so an own [toString] key hides [Object.prototype.toString];
    [valueOf] (an own key, not callable, or the inherited one, which gives
    the object back) yields no primitive, and the conversion throws. Without
    such a key [Object.prototype.toString] prints "[object Object]". An
    array prints through [Array.prototype.join], which converts the
    elements from left to right. *)
Fixpoint to_string (v : JsValue) : option string :=
  match v with
  | JUndefined => Some "undefined"
  | JNull => Some "null"
  | JBool true => Some "true"
  | JBool false => Some "false"
  | JNum n => Some (num_to_string n)
  | JStr s => Some s
  | JArr items =>
      (* Array.prototype.join(","): null and undefined print as nothing *)
      (fix join (l : list JsValue) : option string :=
         match l with
         | [] => Some ""
         | x :: r =>
             match (match x with
                    | JUndefined | JNull => Some ""
                    | _ => to_string x
                    end) with
             | None => None
             | Some sx =>
                 match r with
                 | [] => Some sx
                 | _ :: _ =>
                     match join r with
                     | None => None
                     | Some sr => Some (sx ++ "," ++ sr)
                     end
                 end
             end
         end%string) items
  | JObj fields =>
      if has_key "toString" fields then None else Some "[object Object]"
  end%string.

(** An array element as [join] prints it. *)
Definition element (x : JsValue) : option string :=
  match x with
  | JUndefined | JNull => Some ""%string
  | _ => to_string x
  end.

(** The values ToString throws on: an object with a [toString] key of its
    own, and an array that holds such a value. *)
Fixpoint unprintable (v : JsValue) : bool :=
  match v with
  | JArr items => existsb unprintable items
  | JObj fields => has_key "toString" fields
  | _ => false
  end.

Record Request := mkRequest {
  method : string;
  query : list (string * string);
  headers : list (string * string);
  body : JsValue
}.

Record Response := mkResponse {
  status : nat;
  response_body : string
}.

Record Context := mkContext {
  logged : list string;                 (* context.log *)
  res : option Response                 (* context.res *)
}.

(** How a call of the async function ends: the promise it returns is
    fulfilled, or rejected with the TypeError that the template literal
    threw. *)
Inductive Settled := Fulfilled | RejectedTypeError.

(** [module.exports = async function (context, req)]: the context as the
    call leaves it, and how the call ends. Where the template literal
    throws, the assignment to [context.res] is not reached. *)
Definition module_exports (context : Context) (req : Request) : Context * Settled :=
  let context := mkContext (logged context ++ ["HTTP trigger function processed a request."%string])
                           (res context) in
  let body := body req in
  if negb (truthy body) || negb (truthy (barcode_of body)) then
    (mkContext (logged context)
               (Some (mkResponse 400 "Please pass barcode in request body"%string)),
     Fulfilled)
  else
    match to_string (barcode_of body) with
    | Some text =>
        (mkContext (logged context)
                   (Some (mkResponse 200 ("Received barcode: " ++ text)%string)),
         Fulfilled)
    | None => (context, RejectedTypeError)
    end.

(** The context after the call. *)
Definition handler (context : Context) (req : Request) : Context :=
  fst (module_exports context req).

(** The claim's reading of the rejected requests: no body, or a body
    without a [barcode] field. *)
Definition body_absent (v : JsValue) : bool :=
  match v with JUndefined | JNull => true | _ => false end.

Definition lacks_barcode_field (v : JsValue) : bool :=
  match v with
  | JObj fields => negb (has_key "barcode" fields)
  | _ => true
  end.

End Values.

Arguments JUndefined {Num}.
Arguments JNull {Num}.
Arguments JBool {Num}.
Arguments JNum {Num}.
Arguments JStr {Num}.
Arguments JArr {Num}.
Arguments JObj {Num}.
Arguments mkRequest {Num}.
Arguments body {Num}.
Arguments body_absent {Num}.
Arguments lacks_barcode_field {Num}.
Arguments barcode_of {Num}.
Arguments unprintable {Num}.

(** Integer-valued numbers, for examples: [Z] printed in decimal. *)
Definition z_truthy (z : Z) : bool := negb (z =? 0)%Z.
Definition z_to_string (z : Z) : string := NilZero.string_of_int (Z.to_int z).

Definition post (b : JsValue Z) : Request Z :=
  mkRequest "POST" [] [("content-type", "application/json")]%string b.

Definition no_context : Context := mkContext [] None.

Definition respond (req : Request Z) : option Response :=
  res (handler Z z_truthy z_to_string no_context req).

Definition settled (req : Request Z) : Settled :=
  snd (module_exports Z z_truthy z_to_string no_context req).

End HttpTrigger.

(** ** The page around the scanner: [App] and the Done button *)

Module Site.

(** [handleFinishScanning] of the scanner:
    [if (scannedCodes.length > 0) onScan(scannedCodes)].  The result is the
    argument of the [onScan] call, if one is made. *)
Definition handleFinishScanning (c : Scanner.Component) : option (list string) :=
  if 0 <? List.length (Scanner.scannedCodes c)
  then Some (Scanner.scannedCodes c)
  else None.

(** The three [useState] cells of [App]. *)
Record App := mkApp {
  showScanner : bool;
  scanResults : list string;
  showResult : bool
}.

Definition initial : App := mkApp false [] false.

Definition handleGetStarted (a : App) : App :=
  mkApp true (scanResults a) (showResult a).

Definition handleScan (results : list string) (a : App) : App :=
  mkApp false results true.

Definition handleCloseScanner (a : App) : App :=
  mkApp false (scanResults a) (showResult a).

Definition handleCloseResult (a : App) : App :=
  mkApp (showScanner a) [] false.

Definition handleScanAgain (a : App) : App :=
  mkApp true [] false.

(** What can be clicked.  [handleScan] and [handleCloseScanner] are the
    props of [<BarcodeScanner>], rendered under [showScanner &&];
    [handleCloseResult] and [handleScanAgain] are the props of
    [<ScanResult>], rendered under [showResult &&]; the two "Get Started"
    buttons are always rendered. *)
Inductive Click :=
| GetStarted
| Done (results : list string)      (* the scanner calls onScan(results) *)
| CloseScanner
| CloseResult
| ScanAgain.

Definition click (e : Click) (a : App) : App :=
  match e with
  | GetStarted => handleGetStarted a
  | Done results => if showScanner a then handleScan results a else a
  | CloseScanner => if showScanner a then handleCloseScanner a else a
  | CloseResult => if showResult a then handleCloseResult a else a
  | ScanAgain => if showResult a then handleScanAgain a else a
  end.

Definition clicks (es : list Click) (a : App) : App :=
  fold_left (fun a e => click e a) es a.

(** The Done button of a scanner in state [c], as a click on the page:
    nothing when the scanner makes no [onScan] call. *)
Definition done_click (c : Scanner.Component) : list Click :=
  match handleFinishScanning c with
  | Some results => [Done results]
  | None => []
  end.

(** The [onScan] calls of a click sequence carry at least one code. *)
Definition carries_codes (e : Click) : bool :=
  match e with
  | Done [] => false
  | _ => true
  end.

Definition is_empty (l : list string) : bool :=
  match l with [] => true | _ :: _ => false end.

End Site.

(** ** Getting the video to play, in the scanner with constraint options *)

Module VideoStartup.

(** What a play strategy does to the video element before it awaits
    [video.play()]. *)
Inductive Prepare :=
| SetMuted                     (* video.muted = true *)
| Load                         (* video.load() *)
| Wait (ms : nat).             (* await new Promise(resolve => setTimeout(resolve, ms)) *)

(** [playStrategies]: direct play; play muted; load, wait, play. *)
Definition playStrategies : list (list Prepare) :=
  [ []; [SetMuted]; [Load; Wait 500] ].

Record VideoElement (World : Type) := mkVideoElement {
  prepare : Prepare -> World -> World;
  play : World -> (unit + JsError) * World
}.

Arguments prepare {World}.
Arguments play {World}.

(** [for (let i = 0; i < playStrategies.length; i++)
       try { await playStrategies[i](); playSuccess = true; break; }
       catch (playError) {
         if (i === playStrategies.length - 1) playSuccess = true; }]

    [i] is the index of the head of [strategies], [n] the length of the
    whole array; the result is [playSuccess] at loop exit. *)
Fixpoint try_strategies {World : Type} (v : VideoElement World)
    (strategies : list (list Prepare)) (i n : nat) (playSuccess : bool) (w : World)
  : bool * World :=
  match strategies with
  | [] => (playSuccess, w)
  | strategy :: rest =>
      let w1 := fold_left (fun w p => prepare v p w) strategy w in
      match play v w1 with
      | (inl _, w2) => (true, w2)
      | (inr _, w2) =>
          try_strategies v rest (S i) n
            (if i =? n - 1 then true else playSuccess) w2
      end
  end.

Definition play_with_strategies {World : Type} (v : VideoElement World)
    (strategies : list (list Prepare)) (w : World) : bool * World :=
  try_strategies v strategies 0 (List.length strategies) false w.

(** A video element that journals what is done to it. *)
Inductive Done :=
| Prepared (p : Prepare)
| Played (ok : bool).

Definition journaling {World : Type} (v : VideoElement World)
  : VideoElement (World * list Done) :=
  mkVideoElement (World * list Done)
    (fun p wj => (prepare v p (fst wj), snd wj ++ [Prepared p]))
    (fun wj =>
       match play v (fst wj) with
       | (r, w') => (r, (w', snd wj ++ [Played (settled_ok r)]))
       end).

(** What running the strategies up to and including number [k] writes
    when the first [k] plays fail: for each strategy its preparations and
    a play, failed for all but the last, whose outcome is [last_ok]. *)
Fixpoint attempts (strategies : list (list Prepare)) (k : nat) (last_ok : bool)
  : list Done :=
  match strategies with
  | [] => []
  | strategy :: rest =>
      match k with
      | 0 => map Prepared strategy ++ [Played last_ok]
      | S k' => map Prepared strategy ++ [Played false] ++ attempts rest k' last_ok
      end
  end.

(** *** The final readiness check

    [checkVideoReady] looks at the video and either declares it ready or
    calls itself again through [setTimeout(checkVideoReady, 500)]. *)

Record Reading := mkReading {
  videoWidth : nat;
  videoHeight : nat;
  paused : bool
}.

(** [video.videoWidth > 0 && video.videoHeight > 0 && !video.paused] *)
Definition is_ready (r : Reading) : bool :=
  (0 <? videoWidth r) && (0 <? videoHeight r) && negb (paused r).

Inductive Polling :=
| ReadyAt (check : nat)        (* setCameraStatus('ready') at this check *)
| StillPolling.                (* a setTimeout(checkVideoReady, 500) is pending *)

(** [readings k] is what check number [k] finds; [fuel] bounds the number
    of checks followed. *)
Fixpoint checkVideoReady (fuel : nat) (readings : nat -> Reading) (k : nat) : Polling :=
  match fuel with
  | 0 => StillPolling
  | S fuel' =>
      if is_ready (readings k) then ReadyAt k
      else checkVideoReady fuel' readings (S k)
  end.

(** Examples: a video that plays only once it has been reloaded, and one
    that gets its dimensions at the fourth look. *)
Definition needs_reload : VideoElement bool :=
  mkVideoElement bool
    (fun p loaded => match p with Load => true | _ => loaded end)
    (fun loaded => if loaded then (inl tt, loaded)
                   else (inr (mkError "play() request was interrupted"), loaded)).

Definition never_plays : VideoElement unit :=
  mkVideoElement unit (fun _ w => w)
    (fun w => (inr (mkError "NotAllowedError"), w)).

Definition slow_video (k : nat) : Reading :=
  if k <? 3 then mkReading 0 0 false else mkReading 1280 720 false.

End VideoStartup.

(** ** A browser in which the component is unmounted during the request *)

Module NegotiationNotions.
Import Negotiation.


Definition everything_there : Env := mkEnv true true true.

End NegotiationNotions.

(** ** Further notions about the scanner *)

Module ScannerNotions.
Import Scanner.

(** The number of decode deliveries among the events. *)
Fixpoint decode_deliveries (events : list Event) : nat :=
  match events with
  | [] => 0
  | Decoded _ _ :: rest => S (decode_deliveries rest)
  | _ :: rest => decode_deliveries rest
  end.


(** Granted on mount under a legacy root, video loaded and playing, the
    scanning started by its timer. *)
Definition scanning : System :=
  run [ GetUserMediaResolved 0; VideoLoadResolved 0; PlaySettled 0 true;
        TimerFired 0 false ] (mount legacy).

(** Granted, one code scanned, restarted with retry, granted again. *)
Definition restarted_once : list Event :=
  [ GetUserMediaResolved 0; Decoded (Some (mkResult "123" 0)) None;
    RetryClicked; TimerFired 0 false; GetUserMediaResolved 0 ].

End ScannerNotions.

(** * Properties *)

(** ** Camera negotiation *)

Module NegotiationSpec.
Import Negotiation.

Section Journal.

Context {World : Type}.
Variable gum : Constraints -> World -> (Stream + JsError) * World.

Lemma try_options_recording :
  forall options lastError w j,
    exists calls,
      try_options (recording gum) options lastError (w, j) =
      (fst (fst (try_options gum options lastError w)),
       snd (fst (try_options gum options lastError w)),
       (snd (try_options gum options lastError w), j ++ calls)) /\
      loop_journal options lastError
        (fst (fst (try_options gum options lastError w)))
        (snd (fst (try_options gum options lastError w))) calls.
Proof.
  induction options as [|c rest IH]; intros lastError w j.
  - exists []. simpl. rewrite app_nil_r. split; [reflexivity|].
    split; [exists 0; reflexivity|].
    split; [constructor|]. split; [reflexivity|]. left. auto.
  - simpl. unfold recording at 1. simpl.
    destruct (gum c w) as [[s|e] w'] eqn:G.
    + exists [(c, inl s)]. simpl. split; [reflexivity|].
      split; [exists 1; reflexivity|].
      exists [], c. split; [reflexivity|constructor].
    + destruct (IH (Some e) w' (j ++ [(c, inr e)])) as (calls & Hrun & (n & Hn) & Hshape).
      exists ((c, inr e) :: calls).
      split.
      { rewrite Hrun. rewrite <- app_assoc. reflexivity. }
      split.
      { exists (S n). simpl. rewrite Hn. reflexivity. }
      destruct (fst (fst (try_options gum rest (Some e) w'))) as [s|].
      * destruct Hshape as (pre & c' & Hc & Hpre).
        exists ((c, inr e) :: pre), c'. split.
        { rewrite Hc. reflexivity. }
        { constructor; [reflexivity|exact Hpre]. }
      * destruct Hshape as (Hall & Hmap & Hlast).
        split; [constructor; [reflexivity|exact Hall]|].
        split; [simpl; rewrite Hmap; reflexivity|].
        right. destruct Hlast as [(Hc & Ho & Hl)|(po & c' & pre & e' & Ho & Hc & Hl)].
        { exists [], c, [], e. rewrite Hc, Ho. repeat split. }
        { exists (c :: po), c', ((c, inr e) :: pre), e'.
          split; [rewrite Ho; reflexivity|].
          split; [rewrite Hc; reflexivity|exact Hl]. }
Qed.

End Journal.

Lemma acquire_recording :
  forall (World : Type) (gum : Constraints -> World -> (Stream + JsError) * World)
         (options : list Constraints) (w : World) (j : list Call),
    exists calls,
      acquire (recording gum) options (w, j) =
      (fst (acquire gum options w), (snd (acquire gum options w), j ++ calls)) /\
      loop_journal options None
        (fst (fst (try_options gum options None w)))
        (snd (fst (try_options gum options None w))) calls.
Proof.
  intros World gum options w j.
  destruct (try_options_recording gum options None w j) as (calls & Hrun & Hshape).
  exists calls. split; [|exact Hshape].
  unfold acquire. rewrite Hrun.
  destruct (try_options gum options None w) as [[[s|] [e|]] w']; reflexivity.
Qed.

Example acquire_picky :
  acquire (recording (getUserMedia picky_browser)) constraintOptions (0, []) =
  (inl 2,
   (3, [ (nth 0 constraintOptions (mkConstraints VideoAny false),
          inr (mkError "Constraints could not be satisfied"));
         (nth 1 constraintOptions (mkConstraints VideoAny false),
          inr (mkError "Constraints could not be satisfied"));
         (nth 2 constraintOptions (mkConstraints VideoAny false), inl 2) ])).
Proof. vm_compute. reflexivity. Qed.

Lemma acquire_no_options :
  forall (World : Type) (gum : Constraints -> World -> (Stream + JsError) * World) (w : World),
    acquire gum [] w = (inr all_options_failed, w).
Proof. reflexivity. Qed.

(** C1: the constraint loop asks for the camera with the options in their
    order (the requests made are an initial segment of the option list),
    and when a request succeeds it is the last one made: every request
    before it failed, none follows it, and its stream is what the
    acquisition returns. *)
Theorem acquire_in_order_until_first_success :
  forall (World : Type) (gum : Constraints -> World -> (Stream + JsError) * World)
         (options : list Constraints) (w : World),
    let run := acquire (recording gum) options (w, []) in
    let calls := snd (snd run) in
    fst run = fst (acquire gum options w) /\
    (exists n, map fst calls = firstn n options) /\
    match fst run with
    | inl stream =>
        exists pre c, calls = pre ++ [(c, inl stream)] /\ Forall failed pre
    | inr _ => Forall failed calls /\ map fst calls = options
    end.
Proof.
  intros World gum options w run calls.
  destruct (acquire_recording World gum options w []) as (cs & Hrun & Hprefix & Hshape).
  subst calls run. rewrite Hrun. simpl.
  split; [reflexivity|]. split; [exact Hprefix|].
  unfold acquire.
  destruct (try_options gum options None w) as [[[s|] le] w']; simpl in *.
  - exact Hshape.
  - destruct Hshape as (Hall & Hmap & _). destruct le; simpl; auto.
Qed.

(** C3: when every request of a non-empty option list fails, the loop has
    asked for every option and the acquisition throws the error of the
    request made for the last option. *)
Theorem acquire_all_failed_throws_last_error :
  forall (World : Type) (gum : Constraints -> World -> (Stream + JsError) * World)
         (options : list Constraints) (w : World),
    options <> [] ->
    Forall failed (snd (snd (acquire (recording gum) options (w, [])))) ->
    exists pre_options c pre e,
      options = pre_options ++ [c] /\
      snd (snd (acquire (recording gum) options (w, []))) = pre ++ [(c, inr e)] /\
      map fst (pre ++ [(c, @inr Stream JsError e)]) = options /\
      fst (acquire (recording gum) options (w, [])) = inr e /\
      fst (acquire gum options w) = inr e.
Proof.
  intros World gum options w Hne Hfail.
  destruct (acquire_recording World gum options w []) as (cs & Hrun & Hprefix & Hshape).
  rewrite Hrun in *. simpl in *.
  unfold acquire.
  destruct (try_options gum options None w) as [[[s|] le] w']; simpl in *.
  - destruct Hshape as (pre & c & Hc & _). subst cs.
    apply Forall_app in Hfail. destruct Hfail as [_ Hlast].
    inversion Hlast as [|? ? Hbad _]. discriminate Hbad.
  - destruct Hshape as (_ & Hmap & [(_ & Ho & _)|(po & c & pre & e & Ho & Hc & Hle)]).
    + contradiction.
    + exists po, c, pre, e. subst le cs. auto.
Qed.

Lemma acquire_all_failed_throws_last_error_witness :
  exists pre_options c pre e,
    constraintOptions = pre_options ++ [c] /\
    snd (snd (acquire (recording (getUserMedia denying_browser)) constraintOptions (0, [])))
      = pre ++ [(c, inr e)] /\
    map fst (pre ++ [(c, @inr Stream JsError e)]) = constraintOptions /\
    fst (acquire (recording (getUserMedia denying_browser)) constraintOptions (0, [])) = inr e /\
    fst (acquire (getUserMedia denying_browser) constraintOptions 0) = inr e.
Proof.
  apply (acquire_all_failed_throws_last_error nat (getUserMedia denying_browser)
           constraintOptions 0).
  - discriminate.
  - vm_compute. repeat constructor.
Defined.

(** What the user sees of it: with the checks passed and the component
    still mounted, the thrown error is shown behind the fixed prefix. *)
Lemma initializeScanner_surfaces_acquire_error :
  forall (World : Type) (b : Browser World) (options : list Constraints)
         (c : Component) (w w' : World) (err : JsError),
    isInitializedRef c = false ->
    isMountedRef b w = true ->
    acquire (getUserMedia b) options w = (inr err, w') ->
    isMountedRef b w' = true ->
    initializeScanner b (mkEnv true true true) options c w =
    (mkComponent false (streamRef c) StatusError (Some false)
       ("Camera initialization failed: " ++ message err)%string,
     w', Surfaced err).
Proof.
  intros World b options c w w' err Hinit Hm Hacq Hm'.
  unfold initializeScanner. rewrite Hinit, Hm. simpl.
  rewrite Hacq. unfold on_error. rewrite Hm'. reflexivity.
Qed.

(** C8 (as the code has it): a call of [initializeScanner] that passes its
    guard (not yet initialised, component mounted) ends in the error state
    without a single camera request
    - with "Camera requires HTTPS connection" when the context is not
      secure, whether or not the camera API exists;
    - with "Camera API not available in this browser" when the context is
      secure and [navigator.mediaDevices] or its [getUserMedia] is
      missing. *)
Theorem initializeScanner_environment_checks :
  forall (World : Type) (b : Browser World) (env : Env)
         (options : list Constraints) (c : Component) (w : World),
    isInitializedRef c = false ->
    isMountedRef b w = true ->
    isSecureContext env && (mediaDevices env && mediaDevices_getUserMedia env) = false ->
    let err := if isSecureContext env then camera_api_missing else insecure_context in
    initializeScanner (recording_browser b) env options c (w, []) =
    (mkComponent false (streamRef c) StatusError (Some false)
       ("Camera initialization failed: " ++ message err)%string,
     (w, []), Surfaced err).
Proof.
  intros World b env options c w Hinit Hm Hchecks err. subst err.
  unfold initializeScanner. simpl. rewrite Hinit, Hm. simpl.
  destruct (isSecureContext env); simpl in *.
  - assert (Hno : negb (mediaDevices env) || negb (mediaDevices_getUserMedia env) = true).
    { destruct (mediaDevices env), (mediaDevices_getUserMedia env);
        simpl in *; congruence. }
    rewrite Hno. unfold on_error. simpl. rewrite Hm. reflexivity.
  - unfold on_error. simpl. rewrite Hm. reflexivity.
Qed.

Lemma initializeScanner_environment_checks_witness :
  initializeScanner (recording_browser granting_browser) (mkEnv true true false)
    constraintOptions initial (0, []) =
  (mkComponent false None StatusError (Some false)
     "Camera initialization failed: Camera API not available in this browser",
   (0, []), Surfaced camera_api_missing).
Proof.
  apply (initializeScanner_environment_checks nat granting_browser
           (mkEnv true true false) constraintOptions initial 0).
  - reflexivity.
  - reflexivity.
  - reflexivity.
Defined.

(** C8, the claim as worded, fails where both conditions hold: in a
    context that is not secure and has no camera API the call reports the
    HTTPS error, not the missing API. *)
Lemma missing_api_in_insecure_context_reports_https :
  mediaDevices (mkEnv false false false) = false /\
  snd (initializeScanner (recording_browser granting_browser) (mkEnv false false false)
         constraintOptions initial (0, [])) = Surfaced insecure_context /\
  Surfaced insecure_context <> Surfaced camera_api_missing.
Proof.
  split; [reflexivity|]. split; [reflexivity|]. discriminate.
Qed.

End NegotiationSpec.

(** ** The scanner component *)

Module ScannerSpec.
Import Scanner.

(** *** How a resumed call and a fired timer decompose *)

Lemma resume_cases :
  forall (i : nat) (a : Await) (k : System -> System) (s : System),
    resume i a k s = s \/
    (nth_error (pending s) i = Some a /\
     resume i a k s = k (set_pending (drop_nth i (pending s)) s)).
Proof.
  intros i a k s. unfold resume.
  destruct (nth_error (pending s) i) as [a'|]; [|left; reflexivity].
  destruct a, a'; auto.
Qed.

Lemma resume_pending :
  forall (i : nat) (a : Await) (k : System -> System) (s : System),
    nth_error (pending s) i = Some a ->
    resume i a k s = k (set_pending (drop_nth i (pending s)) s).
Proof.
  intros i a k s H. unfold resume. rewrite H. destruct a; reflexivity.
Qed.

Ltac open_system :=
  repeat match goal with
         | s : System |- _ => destruct s as [? ? ? ? ? ?]
         end;
  repeat match goal with
         | c : Component |- _ => destruct c
         end;
  cbn in *; subst.

Ltac cases :=
  repeat match goal with
         | |- context [negb ?b] => is_var b; destruct b; cbn
         | |- context [match ?x with _ => _ end] => is_var x; destruct x; cbn
         | |- context [match ?x with _ => _ end] => destruct x eqn:?; cbn
         end.

(** *** Stream handles are fresh: every live stream was granted before
    the next handle *)

Lemma filter_fresh :
  forall (n x : nat) (l : list nat),
    Forall (fun y => y < n) l ->
    Forall (fun y => y < n) (filter (fun y => negb (y =? x)) l).
Proof.
  intros n x l H. rewrite Forall_forall in *. intros y Hy.
  apply filter_In in Hy. apply H. tauto.
Qed.

Lemma filter_absent :
  forall (x : nat) (l : list nat),
    ~ In x l -> filter (fun y => negb (y =? x)) l = l.
Proof.
  intros x l. induction l as [|y l IH]; intros H; [reflexivity|].
  simpl. destruct (Nat.eqb_spec y x) as [->|Hne]; simpl.
  - exfalso. apply H. left. reflexivity.
  - f_equal. apply IH. intros Hin. apply H. right. exact Hin.
Qed.

Lemma fresh_absent :
  forall (n : nat) (l : list nat), Forall (fun y => y < n) l -> ~ In n l.
Proof.
  intros n l H Hin. rewrite Forall_forall in H. apply H in Hin. lia.
Qed.

Lemma filter_granted :
  forall (n : nat) (l : list nat),
    Forall (fun y => y < n) l ->
    filter (fun y => negb (y =? n)) (l ++ [n]) = l.
Proof.
  intros n l H. rewrite filter_app. simpl. rewrite Nat.eqb_refl. simpl.
  rewrite app_nil_r. apply filter_absent. apply fresh_absent. exact H.
Qed.

Lemma cleanup_fresh :
  forall s, handles_fresh s -> handles_fresh (cleanup s).
Proof.
  unfold handles_fresh. intros s H. open_system.
  unfold cleanup, update, setState, stop_tracks. cbn. cases;
    try assumption; apply filter_fresh; assumption.
Qed.

Lemma initializeScanner_hardware :
  forall s,
    liveStreams (initializeScanner s) = liveStreams s /\
    nextStream (initializeScanner s) = nextStream s.
Proof.
  intros s. open_system. unfold initializeScanner, update, setState, suspend, on_error.
  cbn. cases; auto.
Qed.

Lemma after_getUserMedia_grant_fresh :
  forall s, handles_fresh s -> handles_fresh (after_getUserMedia (nextStream s) (grant s)).
Proof.
  unfold handles_fresh. intros s H. open_system.
  assert (Hg : Forall (fun x => x < S nextStream0) (liveStreams0 ++ [nextStream0])).
  { apply Forall_app. split.
    - eapply Forall_impl; [|exact H]. cbn. intros; lia.
    - constructor; [lia|constructor]. }
  unfold after_getUserMedia, grant, update, setState, suspend, stop_tracks. cbn.
  cases; try assumption; apply filter_fresh; assumption.
Qed.

Lemma handles_fresh_comp :
  forall f s, handles_fresh s -> handles_fresh (update f s).
Proof. intros f s H. exact H. Qed.

Lemma handles_fresh_step :
  forall (e : Event) (s : System), handles_fresh s -> handles_fresh (step e s).
Proof.
  intros e s H. unfold step. apply handles_fresh_comp.
  destruct e; cbn [handle].
  - apply cleanup_fresh. exact H.
  - destruct (resume_cases i AwaitGetUserMedia
                (fun s => after_getUserMedia (nextStream s) (grant s)) s)
      as [->|[_ ->]]; [exact H|].
    apply (after_getUserMedia_grant_fresh (set_pending _ s)). exact H.
  - destruct (resume_cases i AwaitGetUserMedia (update (on_error err)) s)
      as [->|[_ ->]]; exact H.
  - destruct (resume_cases i AwaitVideoLoad after_video_load s) as [->|[_ ->]]; [exact H|].
    unfold after_video_load. cases; exact H.
  - destruct (resume_cases i AwaitVideoLoad
                (update (on_error (video_loading_failed msg))) s)
      as [->|[_ ->]]; exact H.
  - destruct (resume_cases i AwaitPlay (after_play resolved) s) as [->|[_ ->]]; [exact H|].
    unfold after_play, start_scanning_soon. cases; exact H.
  - destruct (resume_cases i AwaitPlayRetry
                (update (setState (set_videoReady true))) s)
      as [->|[_ ->]]; exact H.
  - destruct (nth_error (timers s) i) as [t|]; [|exact H].
    destruct t; cbn [fire].
    + destruct (isMountedRef _); [|exact H].
      unfold handles_fresh.
      destruct (initializeScanner_hardware (set_timers (drop_nth i (timers s)) s))
        as [-> ->]. exact H.
    + unfold startBarcodeScanning. cases; exact H.
    + cases; exact H.
  - cases; exact H.
  - exact H.
  - exact H.
  - unfold retryScanning. apply (cleanup_fresh s) in H. exact H.
Qed.

Lemma handles_fresh_run :
  forall (events : list Event) (s : System),
    handles_fresh s -> handles_fresh (run events s).
Proof.
  induction events as [|e events IH]; intros s H; [exact H|].
  cbn. apply IH. apply handles_fresh_step. exact H.
Qed.

Lemma handles_fresh_mount : forall (md : Page), handles_fresh (mount md).
Proof. intros [[] ?]; constructor. Qed.

(** *** Only decode deliveries and removals touch the results *)

Lemma results_cleanup :
  forall s, results (comp (cleanup s)) = results (comp s).
Proof.
  intros s. open_system. unfold cleanup, update, setState, stop_tracks. cbn.
  cases; reflexivity.
Qed.

Lemma results_initializeScanner :
  forall s, results (comp (initializeScanner s)) = results (comp s).
Proof.
  intros s. open_system.
  unfold initializeScanner, update, setState, suspend, on_error. cbn.
  cases; reflexivity.
Qed.

Lemma results_after_getUserMedia :
  forall stream s, results (comp (after_getUserMedia stream s)) = results (comp s).
Proof.
  intros stream s. open_system.
  unfold after_getUserMedia, update, setState, suspend, stop_tracks. cbn.
  cases; reflexivity.
Qed.

Lemma results_on_error :
  forall err s, results (comp (update (on_error err) s)) = results (comp s).
Proof.
  intros err s. open_system. unfold on_error, update, setState. cbn.
  cases; reflexivity.
Qed.

Lemma results_after_video_load :
  forall s, results (comp (after_video_load s)) = results (comp s).
Proof.
  intros s. unfold after_video_load. cases; reflexivity.
Qed.

Lemma results_after_play :
  forall resolved s, results (comp (after_play resolved s)) = results (comp s).
Proof.
  intros resolved s. open_system.
  unfold after_play, start_scanning_soon, update, setState, setTimeout. cbn.
  cases; reflexivity.
Qed.

Lemma results_videoReady :
  forall s, results (comp (update (setState (set_videoReady true)) s)) = results (comp s).
Proof.
  intros s. open_system. unfold update, setState. cbn. cases; reflexivity.
Qed.

Lemma results_startBarcodeScanning :
  forall s, results (comp (startBarcodeScanning s)) = results (comp s).
Proof.
  intros s. open_system. unfold startBarcodeScanning, update. cbn.
  cases; reflexivity.
Qed.

Lemma results_render :
  forall c, results (render c) = results c.
Proof.
  intros c. destruct c. unfold render. cbn. cases; reflexivity.
Qed.

Lemma results_handle :
  forall (e : Event) (s : System),
    keeps_results e = true -> results (comp (handle e s)) = results (comp s).
Proof.
  intros e s He. destruct e; try discriminate He; cbn [handle].
  - rewrite results_cleanup. destruct s as [c ? ? ? ? ?]. destruct c. reflexivity.
  - destruct (resume_cases i AwaitGetUserMedia
                (fun s => after_getUserMedia (nextStream s) (grant s)) s)
      as [->|[_ ->]]; [reflexivity|].
    rewrite results_after_getUserMedia. reflexivity.
  - destruct (resume_cases i AwaitGetUserMedia (update (on_error err)) s)
      as [->|[_ ->]]; [reflexivity|].
    rewrite results_on_error. reflexivity.
  - destruct (resume_cases i AwaitVideoLoad after_video_load s)
      as [->|[_ ->]]; [reflexivity|].
    rewrite results_after_video_load. reflexivity.
  - destruct (resume_cases i AwaitVideoLoad
                (update (on_error (video_loading_failed msg))) s)
      as [->|[_ ->]]; [reflexivity|].
    rewrite results_on_error. reflexivity.
  - destruct (resume_cases i AwaitPlay (after_play resolved) s)
      as [->|[_ ->]]; [reflexivity|].
    rewrite results_after_play. reflexivity.
  - destruct (resume_cases i AwaitPlayRetry
                (update (setState (set_videoReady true))) s)
      as [->|[_ ->]]; [reflexivity|].
    rewrite results_videoReady. reflexivity.
  - destruct (nth_error (timers s) i) as [t|]; [|reflexivity].
    destruct t; cbn [fire].
    + destruct (isMountedRef _); [|reflexivity].
      rewrite results_initializeScanner. reflexivity.
    + destruct (isMountedRef _); [|reflexivity].
      rewrite results_startBarcodeScanning. reflexivity.
    + destruct (negb paused); reflexivity.
  - destruct (videoRef (comp s)); [|reflexivity].
    rewrite results_videoReady. reflexivity.
  - unfold retryScanning. cbn. rewrite results_cleanup. reflexivity.
Qed.

Lemma results_step :
  forall (e : Event) (s : System),
    keeps_results e = true -> results (comp (step e s)) = results (comp s).
Proof.
  intros e s He. unfold step. cbn. rewrite results_render.
  apply results_handle. exact He.
Qed.

Lemma results_run :
  forall (events : list Event) (s : System),
    forallb keeps_results events = true ->
    results (comp (run events s)) = results (comp s).
Proof.
  induction events as [|e events IH]; intros s H; [reflexivity|].
  cbn in H. apply andb_prop in H. destruct H as [He Hrest].
  cbn. rewrite (IH _ Hrest). apply results_step. exact He.
Qed.

Lemma results_scannedCodes :
  forall c c', results c = results c' -> scannedCodes c = scannedCodes c'.
Proof. unfold results. intros c c' H. congruence. Qed.

(** *** Retry *)

Lemma drop_nth_last :
  forall (A : Type) (l : list A) (x : A), drop_nth (List.length l) (l ++ [x]) = l.
Proof.
  intros A l x. induction l as [|y l IH]; [reflexivity|].
  cbn. rewrite IH. reflexivity.
Qed.

Lemma nth_error_last :
  forall (A : Type) (l : list A) (x : A), nth_error (l ++ [x]) (List.length l) = Some x.
Proof.
  intros A l x. induction l as [|y l IH]; [reflexivity|exact IH].
Qed.

Lemma cleanup_frame :
  forall s,
    timers (cleanup s) = timers s /\ pending (cleanup s) = pending s /\
    nextStream (cleanup s) = nextStream s /\ page (cleanup s) = page s /\
    isMountedRef (comp (cleanup s)) = isMountedRef (comp s).
Proof.
  intros s. open_system. unfold cleanup, update, setState, stop_tracks. cbn.
  cases; auto.
Qed.

Lemma render_mounted :
  forall c, isMountedRef (render c) = isMountedRef c.
Proof. intros c. destruct c. unfold render. cbn. cases; reflexivity. Qed.

(** Clicking retry and letting its timer fire is [cleanup] followed by
    [initializeScanner], with a render after each. *)
Lemma retry_is_cleanup_then_initializeScanner :
  forall (s : System) (paused : bool),
    isMountedRef (comp s) = true ->
    run [RetryClicked; TimerFired (List.length (timers s)) paused] s =
    update render (initializeScanner (update render (cleanup s))).
Proof.
  intros s paused Hm.
  destruct (cleanup_frame s) as (Ht & Hp & Hn & Hmd & Hmc).
  cbn [run fold_left]. unfold step at 2. cbn [handle]. unfold retryScanning.
  unfold step. cbn [handle].
  assert (Htimers : timers (update render (setTimeout RetryTimer (cleanup s)))
                    = timers s ++ [RetryTimer]).
  { cbn. rewrite Ht. reflexivity. }
  rewrite Htimers, nth_error_last, drop_nth_last. cbn [fire].
  assert (Hmounted : isMountedRef
            (comp (set_timers (timers s)
                     (update render (setTimeout RetryTimer (cleanup s))))) = true).
  { cbn. rewrite render_mounted, Hmc. exact Hm. }
  rewrite Hmounted.
  assert (Hsame : set_timers (timers s)
                    (update render (setTimeout RetryTimer (cleanup s)))
                  = update render (cleanup s)).
  { unfold set_timers, update, setTimeout, set_comp. cbn. rewrite Ht. reflexivity. }
  rewrite Hsame. reflexivity.
Qed.

(** C4 (as the code has it): a retry, that is [cleanup] followed after its
    timer by [initializeScanner], leaves the codes scanned so far in place,
    and so does everything the restarted initialisation goes through. *)
Theorem retry_keeps_scanned_codes :
  forall (s : System) (paused : bool) (events : list Event),
    isMountedRef (comp s) = true ->
    forallb keeps_results events = true ->
    let restarted := run [RetryClicked; TimerFired (List.length (timers s)) paused] s in
    restarted = update render (initializeScanner (update render (cleanup s))) /\
    scannedCodes (comp restarted) = scannedCodes (comp s) /\
    scannedCodes (comp (run events restarted)) = scannedCodes (comp s).
Proof.
  intros s paused events Hm Hev restarted.
  assert (Hres : results (comp restarted) = results (comp s)).
  { apply results_run. reflexivity. }
  split; [apply retry_is_cleanup_then_initializeScanner; exact Hm|].
  split; [apply results_scannedCodes; exact Hres|].
  apply results_scannedCodes. rewrite results_run; assumption.
Qed.

(** *** The scanned codes hold each text once *)

#[local] Arguments includes : simpl never.

Lemma includes_In :
  forall (l : list string) (v : string), includes l v = true <-> In v l.
Proof.
  intros l v. unfold includes. rewrite existsb_exists. split.
  - intros (x & Hin & Heq). apply String.eqb_eq in Heq. subst. exact Hin.
  - intros Hin. exists v. split; [exact Hin|apply String.eqb_refl].
Qed.

Lemma includes_app :
  forall (l : list string) (t u : string),
    includes (l ++ [t]) u = includes l u || String.eqb u t.
Proof.
  intros l t u. unfold includes. rewrite existsb_app. cbn.
  rewrite orb_false_r. reflexivity.
Qed.

Lemma add_if_absent_NoDup :
  forall (t : string) (l : list string), NoDup l -> NoDup (add_if_absent t l).
Proof.
  intros t l H. unfold add_if_absent.
  destruct (includes l t) eqn:E; cbn; [exact H|].
  apply NoDup_app; [exact H|constructor; [intros []|constructor]|].
  intros x Hx [<-|[]]. apply includes_In in Hx. congruence.
Qed.

Lemma filter_index_In :
  forall (A : Type) (keep : nat -> bool) (l : list A) (from : nat) (x : A),
    In x (filter_index keep from l) -> In x l.
Proof.
  intros A keep l. induction l as [|y l IH]; intros from x H; [exact H|].
  cbn in H. destruct (keep from).
  - destruct H as [->|H]; [left; reflexivity|right; eapply IH; exact H].
  - right. eapply IH. exact H.
Qed.

Lemma filter_index_NoDup :
  forall (A : Type) (keep : nat -> bool) (l : list A) (from : nat),
    NoDup l -> NoDup (filter_index keep from l).
Proof.
  intros A keep l. induction l as [|y l IH]; intros from H; [constructor|].
  inversion H as [|? ? Hy Hl]; subst. cbn. destruct (keep from).
  - constructor; [|apply IH; exact Hl].
    intros Hin. apply Hy. eapply filter_index_In. exact Hin.
  - apply IH. exact Hl.
Qed.

Lemma on_decode_codes :
  forall (result : option DecodeResult) (err : option JsError) (c : Component),
    scannedCodes (on_decode result err c) =
    if isMountedRef c then
      match result with
      | Some r => add_if_absent (getText r) (scannedCodes c)
      | None => scannedCodes c
      end
    else scannedCodes c.
Proof.
  intros result err c. destruct c. unfold on_decode, setState. cbn.
  cases; reflexivity.
Qed.

Lemma on_decode_mounted :
  forall (result : option DecodeResult) (err : option JsError) (c : Component),
    isMountedRef (on_decode result err c) = isMountedRef c.
Proof.
  intros result err c. destruct c. unfold on_decode, setState. cbn.
  cases; reflexivity.
Qed.

Lemma removeScannedCode_codes :
  forall (index : nat) (c : Component),
    scannedCodes (removeScannedCode index c) =
    if isMountedRef c
    then filter_index (fun i => negb (i =? index)) 0 (scannedCodes c)
    else scannedCodes c.
Proof.
  intros index c. destruct c. unfold removeScannedCode, setState. cbn.
  cases; reflexivity.
Qed.

Lemma render_codes :
  forall c, scannedCodes (render c) = scannedCodes c.
Proof. intros c. apply results_scannedCodes, results_render. Qed.

Lemma NoDup_step :
  forall (e : Event) (s : System),
    NoDup (scannedCodes (comp s)) -> NoDup (scannedCodes (comp (step e s))).
Proof.
  intros e s H. destruct (keeps_results e) eqn:K.
  - rewrite (results_scannedCodes _ _ (results_step e s K)). exact H.
  - destruct e; try discriminate K; unfold step; cbn; rewrite render_codes.
    + rewrite on_decode_codes. destruct (isMountedRef (comp s)); [|exact H].
      destruct result; [apply add_if_absent_NoDup|]; exact H.
    + rewrite removeScannedCode_codes. destruct (isMountedRef (comp s)); [|exact H].
      apply filter_index_NoDup. exact H.
Qed.

Lemma NoDup_run :
  forall (events : list Event) (s : System),
    NoDup (scannedCodes (comp s)) -> NoDup (scannedCodes (comp (run events s))).
Proof.
  induction events as [|e events IH]; intros s H; [exact H|].
  cbn. apply IH. apply NoDup_step. exact H.
Qed.

Lemma NoDup_not_appended :
  forall (l : list string) (t : string), NoDup (l ++ [t]) -> ~ In t l.
Proof.
  intros l t H Hin. apply NoDup_remove_2 in H. apply H.
  rewrite app_nil_r. exact Hin.
Qed.

(** C5 (as the code has it): in every state a session can reach, the
    scanned codes hold no text twice, and no event appends a text that is
    present: a text never gains a second occurrence. *)
Theorem scanned_codes_never_hold_a_text_twice :
  forall (md : Page) (events : list Event) (e : Event) (t : string),
    let s := run events (mount md) in
    NoDup (scannedCodes (comp s)) /\
    ~ (In t (scannedCodes (comp s)) /\
       scannedCodes (comp (step e s)) = scannedCodes (comp s) ++ [t]) /\
    count_occ string_dec (scannedCodes (comp (step e s))) t <= 1.
Proof.
  intros md events e t s.
  assert (H : NoDup (scannedCodes (comp s))).
  { apply NoDup_run. destruct md as [[] ?]; constructor. }
  assert (H' : NoDup (scannedCodes (comp (step e s)))) by (apply NoDup_step; exact H).
  split; [exact H|]. split.
  - intros [Hin Heq]. rewrite Heq in H'. exact (NoDup_not_appended _ _ H' Hin).
  - rewrite (NoDup_count_occ string_dec) in H'. apply H'.
Qed.

(** *** Decode deliveries accumulate the distinct texts in first-seen order *)

Lemma filter_filter :
  forall (A : Type) (f g : A -> bool) (l : list A),
    filter f (filter g l) = filter (fun x => g x && f x) l.
Proof.
  intros A f g l. induction l as [|x l IH]; [reflexivity|].
  cbn. destruct (g x); cbn; [destruct (f x)|]; rewrite IH; reflexivity.
Qed.

Lemma fold_add_first_seen :
  forall (texts acc : list string),
    fold_left (fun a t => add_if_absent t a) texts acc =
    acc ++ filter (fun u => negb (includes acc u)) (first_seen texts).
Proof.
  induction texts as [|t rest IH]; intros acc.
  - cbn. rewrite app_nil_r. reflexivity.
  - cbn. rewrite IH. unfold add_if_absent.
    destruct (includes acc t) eqn:E; cbn.
    + f_equal. rewrite filter_filter. apply filter_ext. intros u.
      destruct (String.eqb_spec u t) as [->|Hne]; cbn; [rewrite E|]; reflexivity.
    + rewrite <- app_assoc. cbn. f_equal. f_equal.
      rewrite filter_filter. apply filter_ext. intros u.
      rewrite includes_app. destruct (includes acc u), (String.eqb u t); reflexivity.
Qed.

Lemma first_seen_In :
  forall (texts : list string) (t : string), In t (first_seen texts) <-> In t texts.
Proof.
  induction texts as [|u rest IH]; intros t; [tauto|].
  cbn. rewrite filter_In, IH.
  destruct (String.eqb_spec t u) as [->|Hne]; cbn; [tauto|].
  split.
  - intros [->|[H _]]; auto.
  - intros [->|H]; auto.
Qed.

Lemma first_seen_NoDup :
  forall (texts : list string), NoDup (first_seen texts).
Proof.
  induction texts as [|u rest IH]; [constructor|].
  cbn. constructor.
  - rewrite filter_In. intros [_ H]. rewrite String.eqb_refl in H. discriminate.
  - apply NoDup_filter. exact IH.
Qed.

Lemma deliveries_codes :
  forall (attempts : list (option DecodeResult * option JsError)) (s : System),
    isMountedRef (comp s) = true ->
    scannedCodes (comp (run (deliveries attempts) s)) =
    fold_left (fun a t => add_if_absent t a) (decoded_texts attempts)
      (scannedCodes (comp s)).
Proof.
  induction attempts as [|[result err] rest IH]; intros s Hm; [reflexivity|].
  assert (Hstep : isMountedRef (comp (step (Decoded result err) s)) = true).
  { unfold step. cbn. rewrite render_mounted, on_decode_mounted. exact Hm. }
  cbn [deliveries map run fold_left fst snd].
  fold (deliveries rest). fold (run (deliveries rest) (step (Decoded result err) s)).
  rewrite (IH _ Hstep). unfold step. cbn [comp update set_comp handle].
  rewrite render_codes, on_decode_codes, Hm.
  destruct result; reflexivity.
Qed.

(** C2: decode attempts delivered to a mounted component that has no codes
    yet leave in [scannedCodes] the distinct decoded texts, each once, in
    the order in which they were first seen. *)
Theorem deliveries_accumulate_distinct_texts_in_first_seen_order :
  forall (s : System) (attempts : list (option DecodeResult * option JsError)),
    isMountedRef (comp s) = true ->
    scannedCodes (comp s) = [] ->
    let codes := scannedCodes (comp (run (deliveries attempts) s)) in
    codes = first_seen (decoded_texts attempts) /\
    NoDup codes /\
    (forall t, In t codes <-> In t (decoded_texts attempts)) /\
    (forall t, In t (decoded_texts attempts) -> count_occ string_dec codes t = 1).
Proof.
  intros s attempts Hm Hempty codes.
  assert (Hcodes : codes = first_seen (decoded_texts attempts)).
  { subst codes. rewrite (deliveries_codes attempts s Hm), Hempty.
    rewrite fold_add_first_seen. cbn.
    rewrite (filter_ext _ (fun _ => true)) by reflexivity.
    clear. induction (first_seen (decoded_texts attempts)) as [|x l IH];
      [reflexivity|cbn; rewrite IH; reflexivity]. }
  rewrite Hcodes.
  split; [reflexivity|]. split; [apply first_seen_NoDup|].
  split; [intros t; apply first_seen_In|].
  intros t Hin.
  apply (proj1 (NoDup_count_occ' string_dec _) (first_seen_NoDup _)).
  apply first_seen_In. exact Hin.
Qed.

Lemma deliveries_accumulate_distinct_texts_in_first_seen_order_witness :
  let codes := scannedCodes (comp (run (deliveries example_attempts) (mount modern))) in
  codes = first_seen (decoded_texts example_attempts) /\
  NoDup codes /\
  (forall t, In t codes <-> In t (decoded_texts example_attempts)) /\
  (forall t, In t (decoded_texts example_attempts) -> count_occ string_dec codes t = 1).
Proof.
  apply (deliveries_accumulate_distinct_texts_in_first_seen_order
           (mount modern) example_attempts).
  - reflexivity.
  - reflexivity.
Defined.

Example example_attempts_codes :
  decoded_texts example_attempts = ["123"; "123"; "456"]%string /\
  scannedCodes (comp (run (deliveries example_attempts) (mount modern)))
  = ["123"; "456"]%string.
Proof. split; vm_compute; reflexivity. Qed.

(** C5, the claim as worded, fails: a text that was present and has been
    removed with [removeScannedCode] is appended again by the next decode
    of it. *)
Lemma removed_text_is_appended_again :
  In "123"%string (scannedCodes (comp one_code_scanned)) /\
  scannedCodes (comp (run [RemoveClicked 0] one_code_scanned)) = [] /\
  scannedCodes (comp (run [RemoveClicked 0; Decoded (Some (mkResult "123" 0)) None]
                          one_code_scanned))
  = scannedCodes (comp (run [RemoveClicked 0] one_code_scanned)) ++ ["123"%string].
Proof.
  split; [vm_compute; left; reflexivity|]. split; vm_compute; reflexivity.
Qed.

Lemma retry_keeps_scanned_codes_witness :
  let restarted :=
    run [RetryClicked; TimerFired (List.length (timers one_code_scanned)) false]
        one_code_scanned in
  restarted = update render (initializeScanner (update render (cleanup one_code_scanned))) /\
  scannedCodes (comp restarted) = scannedCodes (comp one_code_scanned) /\
  scannedCodes (comp (run [GetUserMediaResolved 0] restarted))
  = scannedCodes (comp one_code_scanned).
Proof.
  apply (retry_keeps_scanned_codes one_code_scanned false [GetUserMediaResolved 0]).
  - vm_compute. reflexivity.
  - reflexivity.
Defined.

(** C4, the claim as worded, fails: the code scanned before the retry is
    still there after [cleanup], the restart and the new camera grant. *)
Lemma retry_carries_scanned_codes_over :
  scannedCodes (comp one_code_scanned) = ["123"%string] /\
  scannedCodes
    (comp (run [RetryClicked; TimerFired 0 false; GetUserMediaResolved 0] one_code_scanned))
  = ["123"%string] /\
  streamRef
    (comp (run [RetryClicked; TimerFired 0 false; GetUserMediaResolved 0] one_code_scanned))
  = Some 1 /\
  scannedCodes
    (comp (run [RetryClicked; TimerFired 0 false; GetUserMediaResolved 0] one_code_scanned))
  <> [].
Proof.
  split; [vm_compute; reflexivity|]. split; [vm_compute; reflexivity|].
  split; [vm_compute; reflexivity|]. vm_compute. discriminate.
Qed.

(** *** After the unmount nothing moves *)

Ltac use_disposed H :=
  unfold disposed in H; cbn in H;
  destruct H as (? & ? & ? & ? & ? & [?|?]); subst.

Lemma run_app :
  forall (l1 l2 : list Event) (s : System), run (l1 ++ l2) s = run l2 (run l1 s).
Proof. intros l1 l2 s. unfold run. apply fold_left_app. Qed.

Lemma unmount_disposed :
  forall s, disposed (comp (step Unmount s)).
Proof.
  intros s. open_system.
  unfold step, handle, cleanup, update, setState, stop_tracks, render, disposed.
  cbn. cases; cbn; auto 10.
Qed.

Lemma disposed_cleanup :
  forall s, disposed (comp s) -> cleanup s = s.
Proof.
  intros s H. open_system. use_disposed H;
    unfold cleanup, update, setState, stop_tracks; cbn; reflexivity.
Qed.

Lemma disposed_initializeScanner :
  forall s, disposed (comp s) -> initializeScanner s = s.
Proof.
  intros s H. open_system. use_disposed H;
    unfold initializeScanner; cbn; reflexivity.
Qed.

Lemma disposed_startBarcodeScanning :
  forall s, disposed (comp s) -> startBarcodeScanning s = s.
Proof.
  intros s H. open_system. use_disposed H;
    unfold startBarcodeScanning; cbn; reflexivity.
Qed.

Lemma disposed_on_error :
  forall err c, disposed c -> on_error err c = c.
Proof.
  intros err c H. destruct c. use_disposed H; reflexivity.
Qed.

Lemma disposed_setState :
  forall f c, disposed c -> setState f c = c.
Proof.
  intros f c H. destruct c. use_disposed H; reflexivity.
Qed.

Lemma disposed_on_decode :
  forall result err c, disposed c -> on_decode result err c = c.
Proof.
  intros result err c H. destruct c. use_disposed H; reflexivity.
Qed.

Lemma disposed_removeScannedCode :
  forall index c, disposed c -> removeScannedCode index c = c.
Proof.
  intros index c H. apply disposed_setState. exact H.
Qed.

Lemma disposed_render :
  forall c, disposed c -> render c = c.
Proof.
  intros c H. destruct c. use_disposed H; reflexivity.
Qed.

Lemma update_same :
  forall f s, f (comp s) = comp s -> update f s = s.
Proof.
  intros f s H. destruct s. unfold update, set_comp. cbn in *. rewrite H. reflexivity.
Qed.

Lemma disposed_after_video_load :
  forall s, disposed (comp s) -> after_video_load s = s.
Proof.
  intros s H. unfold after_video_load. destruct H as (-> & _). reflexivity.
Qed.

Lemma disposed_after_play :
  forall resolved s, disposed (comp s) -> session (after_play resolved s) = session s.
Proof.
  intros resolved s H. open_system. use_disposed H; destruct resolved; reflexivity.
Qed.

(** A stream granted to a disposed component is stopped on arrival and
    kept nowhere. *)
Lemma disposed_after_getUserMedia :
  forall s,
    disposed (comp s) -> handles_fresh s ->
    session (after_getUserMedia (nextStream s) (grant s)) = session s /\
    nextStream (after_getUserMedia (nextStream s) (grant s)) = S (nextStream s).
Proof.
  intros s H Hf. unfold handles_fresh in Hf. open_system.
  use_disposed H.
  all: unfold after_getUserMedia, grant, stop_tracks, session; cbn.
  all: split; [f_equal; exact (filter_granted _ _ Hf)|reflexivity].
Qed.

Lemma disposed_step :
  forall (e : Event) (s : System),
    disposed (comp s) -> handles_fresh s -> session (step e s) = session s.
Proof.
  intros e s H Hf.
  assert (Hrender : forall s', session s' = session s ->
                               session (update render s') = session s).
  { intros s' Hs. unfold session in *. cbn.
    injection Hs as Hc Hl. rewrite Hc, Hl, (disposed_render _ H). reflexivity. }
  unfold step. apply Hrender. destruct e; cbn [handle].
  - assert (Hu : update (set_isMountedRef false) s = s).
    { apply update_same. destruct s as [c ? ? ? ? ?]. destruct c.
      use_disposed H; reflexivity. }
    rewrite Hu, (disposed_cleanup _ H). reflexivity.
  - destruct (resume_cases i AwaitGetUserMedia
                (fun s => after_getUserMedia (nextStream s) (grant s)) s)
      as [->|[_ ->]]; [reflexivity|].
    apply (disposed_after_getUserMedia (set_pending _ s)); assumption.
  - destruct (resume_cases i AwaitGetUserMedia (update (on_error err)) s)
      as [->|[_ ->]]; [reflexivity|].
    unfold session. cbn. rewrite (disposed_on_error _ _ H). reflexivity.
  - destruct (resume_cases i AwaitVideoLoad after_video_load s)
      as [->|[_ ->]]; [reflexivity|].
    rewrite (disposed_after_video_load (set_pending _ s)); [reflexivity|exact H].
  - destruct (resume_cases i AwaitVideoLoad
                (update (on_error (video_loading_failed msg))) s)
      as [->|[_ ->]]; [reflexivity|].
    unfold session. cbn. rewrite (disposed_on_error _ _ H). reflexivity.
  - destruct (resume_cases i AwaitPlay (after_play resolved) s)
      as [->|[_ ->]]; [reflexivity|].
    apply (disposed_after_play resolved (set_pending _ s)). exact H.
  - destruct (resume_cases i AwaitPlayRetry
                (update (setState (set_videoReady true))) s)
      as [->|[_ ->]]; [reflexivity|].
    unfold session. cbn. rewrite (disposed_setState _ _ H). reflexivity.
  - destruct (nth_error (timers s) i) as [t|]; [|reflexivity].
    assert (Hm : isMountedRef (comp (set_timers (drop_nth i (timers s)) s)) = false)
      by (destruct H as (Hm0 & _); exact Hm0).
    destruct t; cbn [fire]; [rewrite Hm; reflexivity|rewrite Hm; reflexivity|].
    destruct (negb paused); reflexivity.
  - destruct (videoRef (comp s)); [|reflexivity].
    unfold session. cbn. rewrite (disposed_setState _ _ H). reflexivity.
  - unfold session. cbn. rewrite (disposed_on_decode _ _ _ H). reflexivity.
  - unfold session. cbn. rewrite (disposed_removeScannedCode _ _ H). reflexivity.
  - unfold retryScanning. rewrite (disposed_cleanup _ H). reflexivity.
Qed.

Lemma session_comp :
  forall s s', session s' = session s -> comp s' = comp s /\ liveStreams s' = liveStreams s.
Proof. unfold session. intros s s' H. injection H as Hc Hl. auto. Qed.

Lemma disposed_run :
  forall (events : list Event) (s : System),
    disposed (comp s) -> handles_fresh s -> session (run events s) = session s.
Proof.
  induction events as [|e events IH]; intros s H Hf; [reflexivity|].
  cbn. pose proof (disposed_step e s H Hf) as Hs.
  destruct (session_comp _ _ Hs) as [Hc _].
  rewrite IH; [exact Hs| rewrite Hc; exact H | apply handles_fresh_step; exact Hf].
Qed.

(** What holds of every state after an unmount. *)
Lemma after_unmount :
  forall (md : Page) (before after : list Event),
    disposed (comp (run (before ++ Unmount :: after) (mount md))) /\
    handles_fresh (run (before ++ Unmount :: after) (mount md)).
Proof.
  intros md before after.
  rewrite run_app. cbn [run fold_left].
  fold (run after (step Unmount (run before (mount md)))).
  assert (Hf : handles_fresh (step Unmount (run before (mount md)))).
  { apply handles_fresh_step, handles_fresh_run, handles_fresh_mount. }
  pose proof (unmount_disposed (run before (mount md))) as Hd.
  split.
  - destruct (session_comp _ _ (disposed_run after _ Hd Hf)) as [-> _]. exact Hd.
  - apply handles_fresh_run. exact Hf.
Qed.

Lemma invoke_disposed :
  forall (op : Operation) (s : System),
    disposed (comp s) ->
    snd (invoke op s) = Returned /\
    session (fst (invoke op s)) = session s /\
    nextStream (fst (invoke op s)) = nextStream s.
Proof.
  intros op s H. destruct op; cbn [invoke fst snd].
  - rewrite (disposed_initializeScanner _ H). auto.
  - rewrite (disposed_cleanup _ H). auto.
  - unfold retryScanning. rewrite (disposed_cleanup _ H). auto.
  - rewrite update_same; [auto|]. apply disposed_on_decode. exact H.
Qed.

(** C6 (as the code has it): once the component has been unmounted, a call
    of [initializeScanner], [cleanup], [retryScanning] or of the decode
    callback returns normally, and neither the call nor anything that
    happens afterwards (the retry timer included) changes the refs, the
    React state or the live streams. *)
Theorem operations_after_unmount_return_and_change_nothing :
  forall (md : Page) (before after : list Event) (op : Operation) (later : list Event),
    let s := run (before ++ Unmount :: after) (mount md) in
    snd (invoke op s) = Returned /\
    session (fst (invoke op s)) = session s /\
    session (run later (fst (invoke op s))) = session s.
Proof.
  intros md before after op later s.
  destruct (after_unmount md before after) as [Hd Hf]. fold s in Hd, Hf.
  destruct (invoke_disposed op s Hd) as (Hret & Hs & Hn).
  split; [exact Hret|]. split; [exact Hs|].
  destruct (session_comp _ _ Hs) as [Hc Hl].
  rewrite disposed_run; [exact Hs|rewrite Hc; exact Hd|].
  unfold handles_fresh. rewrite Hl, Hn. exact Hf.
Qed.

(** C6, the claim as worded, fails: a call after the unmount does not
    fail, it returns at its guard. *)
Lemma start_after_unmount_returns :
  isMountedRef (comp disposed_in_flight) = false /\
  invoke Start disposed_in_flight = (disposed_in_flight, Returned) /\
  snd (invoke Start disposed_in_flight) <> Raised (mkError "SessionDisposed").
Proof.
  split; [vm_compute; reflexivity|]. split; [vm_compute; reflexivity|].
  vm_compute. discriminate.
Qed.

(** C7: when the component is unmounted while a camera request is in
    flight and the request is later granted, the tracks of the granted
    stream are stopped in the same step, refs, React state and live streams
    are as before the grant, and whatever happens later the stream is never
    live again nor held by [streamRef] or by the video element. *)
Theorem late_stream_after_unmount_is_released :
  forall (md : Page) (before after : list Event) (i : nat) (later : list Event),
    let s1 := run (before ++ Unmount :: after) (mount md) in
    nth_error (pending s1) i = Some AwaitGetUserMedia ->
    let stream := nextStream s1 in
    let s2 := step (GetUserMediaResolved i) s1 in
    let s3 := run later s2 in
    nextStream s2 = S stream /\
    ~ In stream (liveStreams s2) /\
    session s2 = session s1 /\
    ~ In stream (liveStreams s3) /\
    streamRef (comp s3) = None /\
    (videoRef (comp s3) = None \/ videoRef (comp s3) = Some (mkVideo None)).
Proof.
  intros md before after i later s1 Hpending stream s2 s3.
  destruct (after_unmount md before after) as [Hd Hf]. fold s1 in Hd, Hf.
  assert (Hs2 : session s2 = session s1) by (apply disposed_step; assumption).
  destruct (session_comp _ _ Hs2) as [Hc2 Hl2].
  assert (Hn2 : nextStream s2 = S stream).
  { subst s2. unfold step. cbn [handle update set_comp nextStream].
    rewrite (resume_pending _ _ _ _ Hpending).
    apply (disposed_after_getUserMedia (set_pending _ s1)); assumption. }
  assert (Hd2 : disposed (comp s2)) by (rewrite Hc2; exact Hd).
  assert (Hf2 : handles_fresh s2) by (apply handles_fresh_step; exact Hf).
  assert (Hs3 : session s3 = session s2) by (apply disposed_run; assumption).
  destruct (session_comp _ _ Hs3) as [Hc3 Hl3].
  assert (Hfresh : ~ In stream (liveStreams s1)) by (apply fresh_absent; exact Hf).
  split; [exact Hn2|]. split; [rewrite Hl2; exact Hfresh|].
  split; [exact Hs2|]. split; [rewrite Hl3, Hl2; exact Hfresh|].
  rewrite Hc3, Hc2. destruct Hd as (_ & _ & _ & Hstream & _ & Hvideo). auto.
Qed.

Lemma late_stream_after_unmount_is_released_witness :
  let s1 := run ([] ++ Unmount :: []) (mount modern) in
  let stream := nextStream s1 in
  let s2 := step (GetUserMediaResolved 0) s1 in
  let s3 := run [RetryClicked; TimerFired 0 false] s2 in
  nextStream s2 = S stream /\
  ~ In stream (liveStreams s2) /\
  session s2 = session s1 /\
  ~ In stream (liveStreams s3) /\
  streamRef (comp s3) = None /\
  (videoRef (comp s3) = None \/ videoRef (comp s3) = Some (mkVideo None)).
Proof.
  apply (late_stream_after_unmount_is_released modern [] [] 0
           [RetryClicked; TimerFired 0 false]).
  vm_compute. reflexivity.
Defined.

Example late_stream_example :
  pending disposed_in_flight = [AwaitGetUserMedia] /\
  liveStreams (step (GetUserMediaResolved 0) disposed_in_flight) = [] /\
  nextStream (step (GetUserMediaResolved 0) disposed_in_flight) = 1 /\
  pending (step (GetUserMediaResolved 0) disposed_in_flight) = [].
Proof. repeat split; vm_compute; reflexivity. Qed.

(** *** Streams stay owned as long as grants do not overlap *)

Definition owner (s : System) : list Stream * option Stream :=
  (liveStreams s, streamRef (comp s)).

Lemma owner_owned :
  forall s s', owner s' = owner s -> every_live_stream_owned s -> every_live_stream_owned s'.
Proof.
  unfold owner, every_live_stream_owned. intros s s' H Ho stream Hin.
  injection H as Hl Hs. rewrite Hs. apply Ho. rewrite <- Hl. exact Hin.
Qed.

Lemma owner_initializeScanner :
  forall s, owner (initializeScanner s) = owner s.
Proof.
  intros s. open_system.
  unfold initializeScanner, update, setState, suspend, on_error. cbn.
  cases; reflexivity.
Qed.

Lemma owner_on_error :
  forall err s, owner (update (on_error err) s) = owner s.
Proof.
  intros err s. open_system. unfold on_error, update, setState. cbn.
  cases; reflexivity.
Qed.

Lemma owner_after_video_load :
  forall s, owner (after_video_load s) = owner s.
Proof. intros s. unfold after_video_load. cases; reflexivity. Qed.

Lemma owner_after_play :
  forall resolved s, owner (after_play resolved s) = owner s.
Proof.
  intros resolved s. open_system.
  unfold after_play, start_scanning_soon, update, setState, setTimeout. cbn.
  cases; reflexivity.
Qed.

Lemma owner_setState_videoReady :
  forall s, owner (update (setState (set_videoReady true)) s) = owner s.
Proof.
  intros s. open_system. unfold update, setState. cbn. cases; reflexivity.
Qed.

Lemma owner_startBarcodeScanning :
  forall s, owner (startBarcodeScanning s) = owner s.
Proof.
  intros s. open_system. unfold startBarcodeScanning, update. cbn.
  cases; reflexivity.
Qed.

Lemma owner_on_decode :
  forall result err s, owner (update (on_decode result err) s) = owner s.
Proof.
  intros result err s. open_system. unfold on_decode, update, setState. cbn.
  cases; reflexivity.
Qed.

Lemma owner_removeScannedCode :
  forall index s, owner (update (removeScannedCode index) s) = owner s.
Proof.
  intros index s. open_system. unfold removeScannedCode, update, setState. cbn.
  cases; reflexivity.
Qed.

Lemma owner_render :
  forall s, owner (update render s) = owner s.
Proof.
  intros s. open_system. unfold render, update. cbn. cases; reflexivity.
Qed.

Lemma owned_cleanup :
  forall s, every_live_stream_owned s -> every_live_stream_owned (cleanup s).
Proof.
  unfold every_live_stream_owned. intros s H. open_system.
  unfold cleanup, update, setState, stop_tracks. cbn.
  cases; intros x Hx; try (apply filter_In in Hx; destruct Hx as [Hx Hne]);
    specialize (H x Hx); try discriminate H.
  all: injection H as ->; rewrite Nat.eqb_refl in Hne; discriminate Hne.
Qed.

Lemma owned_unmounting :
  forall s,
    every_live_stream_owned s ->
    every_live_stream_owned (update (set_isMountedRef false) s).
Proof.
  intros s. apply owner_owned. open_system. reflexivity.
Qed.

Lemma owned_after_getUserMedia :
  forall s,
    liveStreams s = [] ->
    every_live_stream_owned (after_getUserMedia (nextStream s) (grant s)).
Proof.
  unfold every_live_stream_owned. intros s H. open_system.
  unfold after_getUserMedia, grant, update, setState, suspend, stop_tracks, render.
  cbn. rewrite ?Nat.eqb_refl. cbn. cases;
    intros x Hx; try contradiction; destruct Hx as [<-|[]]; reflexivity.
Qed.

Lemma owned_step :
  forall (e : Event) (s : System),
    every_live_stream_owned s ->
    (if is_grant e then liveStreams s = [] else True) ->
    every_live_stream_owned (step e s).
Proof.
  intros e s H Hgrant. unfold step.
  apply (owner_owned (handle e s)); [apply owner_render|].
  destruct e; cbn [handle is_grant] in *.
  - apply owned_cleanup, owned_unmounting. exact H.
  - destruct (resume_cases i AwaitGetUserMedia
                (fun s => after_getUserMedia (nextStream s) (grant s)) s)
      as [->|[_ ->]]; [exact H|].
    apply (owned_after_getUserMedia (set_pending _ s)). exact Hgrant.
  - destruct (resume_cases i AwaitGetUserMedia (update (on_error err)) s)
      as [->|[_ ->]]; [exact H|].
    eapply owner_owned; [apply owner_on_error|exact H].
  - destruct (resume_cases i AwaitVideoLoad after_video_load s)
      as [->|[_ ->]]; [exact H|].
    eapply owner_owned; [apply owner_after_video_load|exact H].
  - destruct (resume_cases i AwaitVideoLoad
                (update (on_error (video_loading_failed msg))) s)
      as [->|[_ ->]]; [exact H|].
    eapply owner_owned; [apply owner_on_error|exact H].
  - destruct (resume_cases i AwaitPlay (after_play resolved) s)
      as [->|[_ ->]]; [exact H|].
    eapply owner_owned; [apply owner_after_play|exact H].
  - destruct (resume_cases i AwaitPlayRetry
                (update (setState (set_videoReady true))) s)
      as [->|[_ ->]]; [exact H|].
    eapply owner_owned; [apply owner_setState_videoReady|exact H].
  - destruct (nth_error (timers s) i) as [t|]; [|exact H].
    destruct t; cbn [fire].
    + destruct (isMountedRef _); [|exact H].
      eapply owner_owned; [apply owner_initializeScanner|exact H].
    + destruct (isMountedRef _); [|exact H].
      eapply owner_owned; [apply owner_startBarcodeScanning|exact H].
    + destruct (negb paused); exact H.
  - destruct (videoRef (comp s)); [|exact H].
    eapply owner_owned; [apply owner_setState_videoReady|exact H].
  - eapply owner_owned; [apply owner_on_decode|exact H].
  - eapply owner_owned; [apply owner_removeScannedCode|exact H].
  - unfold retryScanning. apply (owned_cleanup s) in H. exact H.
Qed.

(** As long as no grant arrives while another stream is live, every live
    stream is the one [streamRef] holds: nothing is leaked. *)
Lemma no_leak_without_overlapping_grants :
  forall (events : list Event) (s : System),
    every_live_stream_owned s ->
    grants_find_no_live_stream events s ->
    every_live_stream_owned (run events s) /\
    forall stream, ~ leaked stream (run events s).
Proof.
  assert (Hrun : forall events s,
             every_live_stream_owned s -> grants_find_no_live_stream events s ->
             every_live_stream_owned (run events s)).
  { induction events as [|e events IH]; intros s H Hg; [exact H|].
    destruct Hg as [He Hrest]. cbn. apply IH; [|exact Hrest].
    apply owned_step; assumption. }
  intros events s H Hg. split; [apply Hrun; assumption|].
  intros stream [Hin Hne]. apply Hne. apply (Hrun events s H Hg). exact Hin.
Qed.

(** *** A stream that nothing can stop *)

(** C9: the run [overlapping_retries] ends with no call of
    [initializeScanner] suspended, stream 1 in [streamRef] and stream 0
    live but referenced by nothing; the clean-up at unmount stops stream 1
    only. *)
Theorem overlapping_retries_leak_a_stream :
  let s := run overlapping_retries (mount modern) in
  pending s = [] /\
  liveStreams s = [0; 1] /\
  streamRef (comp s) = Some 1 /\
  videoRef (comp s) = Some (mkVideo (Some 1)) /\
  leaked 0 s /\
  liveStreams (step Unmount s) = [0] /\
  leaked 0 (step Unmount s).
Proof.
  unfold leaked. vm_compute.
  repeat split; try reflexivity; try (left; reflexivity); discriminate.
Qed.

Example overlapping_retries_leak_under_legacy_root :
  let s := run overlapping_retries_legacy (mount legacy) in
  pending s = [] /\
  liveStreams s = [0; 1] /\
  streamRef (comp s) = Some 1 /\
  leaked 0 s /\
  leaked 0 (step Unmount s).
Proof.
  unfold leaked. vm_compute.
  repeat split; try reflexivity; try (left; reflexivity); discriminate.
Qed.

End ScannerSpec.

(** ** The HTTP trigger *)

Module HttpTriggerSpec.
Import HttpTrigger.

Section Printing.

Variable Num : Type.
Variable num_to_string : Num -> string.

Lemma to_string_cons :
  forall (x : JsValue Num) (r : list (JsValue Num)),
    to_string Num num_to_string (JArr (x :: r)) =
    match element Num num_to_string x with
    | None => None
    | Some sx =>
        match r with
        | [] => Some sx
        | _ :: _ =>
            match to_string Num num_to_string (JArr r) with
            | None => None
            | Some sr => Some (sx ++ "," ++ sr)%string
            end
        end
    end.
Proof. intros x r. reflexivity. Qed.

Lemma element_throws :
  forall (x : JsValue Num),
    match element Num num_to_string x with None => true | Some _ => false end =
    match to_string Num num_to_string x with None => true | Some _ => false end.
Proof. intros [| |[|]|n|s|items|fields]; reflexivity. Qed.

(** ToString throws exactly on the unprintable values. *)
Lemma to_string_throws :
  forall (v : JsValue Num),
    unprintable v =
    match to_string Num num_to_string v with None => true | Some _ => false end.
Proof.
  fix IH 1. intros [| |[|]|n|s|items|fields]; try reflexivity.
  - change (existsb unprintable items =
            match to_string Num num_to_string (JArr items) with
            | None => true
            | Some _ => false
            end).
    induction items as [|x r IHr]; [reflexivity|].
    rewrite to_string_cons. cbn [existsb]. rewrite IHr, (IH x), <- element_throws.
    clear IH IHr.
    destruct (element Num num_to_string x) as [sx|]; [|reflexivity].
    destruct r as [|y l]; [reflexivity|].
    destruct (to_string Num num_to_string (JArr (y :: l))); reflexivity.
  - cbn. destruct (has_key Num "toString" fields); reflexivity.
Qed.

End Printing.

Section Handler.

Variable Num : Type.
Variable num_truthy : Num -> bool.
Variable num_to_string : Num -> string.

Let truthy := truthy Num num_truthy.
Let to_string := to_string Num num_to_string.
Let module_exports := module_exports Num num_truthy num_to_string.
Let handler := handler Num num_truthy num_to_string.

Lemma module_exports_cases :
  forall (context : Context) (req : Request Num),
    module_exports context req =
    let log := (logged context ++ ["HTTP trigger function processed a request."%string]) in
    if negb (truthy (body req)) || negb (truthy (barcode_of (body req))) then
      (mkContext log (Some (mkResponse 400 "Please pass barcode in request body"%string)),
       Fulfilled)
    else
      match to_string (barcode_of (body req)) with
      | Some text =>
          (mkContext log (Some (mkResponse 200 ("Received barcode: " ++ text)%string)),
           Fulfilled)
      | None => (mkContext log (res context), RejectedTypeError)
      end.
Proof. intros context req. reflexivity. Qed.

Lemma handler_res :
  forall (context : Context) (req : Request Num),
    res (handler context req) =
    if negb (truthy (body req)) || negb (truthy (barcode_of (body req)))
    then Some (mkResponse 400 "Please pass barcode in request body"%string)
    else match to_string (barcode_of (body req)) with
         | Some text => Some (mkResponse 200 ("Received barcode: " ++ text)%string)
         | None => res context
         end.
Proof.
  intros context req. unfold handler, HttpTrigger.handler.
  fold module_exports. rewrite module_exports_cases. cbv zeta.
  destruct (negb (truthy (body req)) || negb (truthy (barcode_of (body req))));
    [reflexivity|].
  destruct (to_string (barcode_of (body req))); reflexivity.
Qed.

(** C10 (as the code has it): the handler answers 400 with
    "Please pass barcode in request body" exactly when the body is falsy or
    its [barcode] is falsy (missing, null, false, 0, NaN or the empty
    string). Otherwise it answers 200 with "Received barcode: " followed by
    the barcode printed as a string, for every barcode that can be printed.
    A barcode that cannot - an object with a [toString] key of its own, or
    an array that holds one - makes the template literal throw: the call is
    rejected with a TypeError and [context.res] stays as it was. The
    response depends on nothing but the body of the request. *)
Theorem handler_response :
  forall (context : Context) (req : Request Num) (logged' : list string)
         (method' : string) (query' headers' : list (string * string)),
    let barcode := barcode_of (body req) in
    let rejected := negb (truthy (body req)) || negb (truthy barcode) in
    res (handler context req) =
      (if rejected
       then Some (mkResponse 400 "Please pass barcode in request body"%string)
       else match to_string barcode with
            | Some text => Some (mkResponse 200 ("Received barcode: " ++ text)%string)
            | None => res context
            end) /\
    snd (module_exports context req) =
      (if rejected || negb (unprintable barcode) then Fulfilled else RejectedTypeError) /\
    unprintable barcode =
      match to_string barcode with None => true | Some _ => false end /\
    res (handler (mkContext logged' (res context))
                 (mkRequest method' query' headers' (body req)))
    = res (handler context req).
Proof.
  intros context req logged' method' query' headers' barcode rejected.
  repeat split.
  - apply handler_res.
  - rewrite module_exports_cases. cbv zeta. subst rejected barcode.
    rewrite (to_string_throws Num num_to_string). fold to_string.
    destruct (negb (truthy (body req)) || negb (truthy (barcode_of (body req))));
      [reflexivity|].
    destruct (to_string (barcode_of (body req))); reflexivity.
  - apply (to_string_throws Num num_to_string).
  - rewrite !handler_res. reflexivity.
Qed.

End Handler.

Example respond_examples :
  respond (post (JObj [("barcode", JStr "4006381333931")]%string))
  = Some (mkResponse 200 "Received barcode: 4006381333931") /\
  respond (post (JObj [("barcode", JNum 12345%Z)]%string))
  = Some (mkResponse 200 "Received barcode: 12345") /\
  respond (post (JObj [("barcode", JArr [JNum 1%Z; JNull; JStr "a"])]%string))
  = Some (mkResponse 200 "Received barcode: 1,,a") /\
  respond (post (JObj [("barcode", JObj [("ean", JStr "1")])]%string))
  = Some (mkResponse 200 "Received barcode: [object Object]") /\
  respond (post JUndefined)
  = Some (mkResponse 400 "Please pass barcode in request body") /\
  respond (post (JObj [("code", JStr "1")]%string))
  = Some (mkResponse 400 "Please pass barcode in request body") /\
  respond (post (JObj [("barcode", JNum 0%Z)]%string))
  = Some (mkResponse 400 "Please pass barcode in request body").
Proof. repeat split; vm_compute; reflexivity. Qed.

(** A barcode object with a [toString] key of its own, also inside an
    array: the call throws and sets no response. *)
Example unprintable_barcode_throws :
  respond (post (JObj [("barcode", JObj [("toString", JNum 1%Z)])]%string)) = None /\
  settled (post (JObj [("barcode", JObj [("toString", JNum 1%Z)])]%string))
  = RejectedTypeError /\
  respond (post (JObj [("barcode",
                        JArr [JStr "a"; JObj [("toString", JNull)]])]%string)) = None /\
  settled (post (JObj [("barcode",
                        JArr [JStr "a"; JObj [("toString", JNull)]])]%string))
  = RejectedTypeError /\
  settled (post (JObj [("barcode", JObj [("valueOf", JNum 1%Z)])]%string)) = Fulfilled.
Proof. repeat split; vm_compute; reflexivity. Qed.

(** C10, the claim as worded, fails: a body that is present and has a
    [barcode] field whose value is the empty string is answered 400. *)
Lemma empty_barcode_is_rejected :
  body_absent (body (post (JObj [("barcode", JStr "")]%string))) = false /\
  lacks_barcode_field (body (post (JObj [("barcode", JStr "")]%string))) = false /\
  respond (post (JObj [("barcode", JStr "")]%string))
  = Some (mkResponse 400 "Please pass barcode in request body").
Proof. repeat split; vm_compute; reflexivity. Qed.

End HttpTriggerSpec.

(** ** More about the scanner component *)

Module ScannerExtras.
Import Scanner ScannerNotions ScannerSpec.

(** *** Removing a code *)

Lemma filter_index_keeps_all :
  forall (A : Type) (l : list A) (from t : nat),
    t < from -> filter_index (fun i => negb (i =? t)) from l = l.
Proof.
  intros A l. induction l as [|x l IH]; intros from t H; [reflexivity|].
  cbn. destruct (Nat.eqb_spec from t) as [E|_]; [lia|]. cbn.
  rewrite IH by lia. reflexivity.
Qed.

Lemma filter_index_drops_one :
  forall (A : Type) (l : list A) (from index t : nat),
    t = from + index ->
    filter_index (fun i => negb (i =? t)) from l = firstn index l ++ skipn (S index) l.
Proof.
  intros A l. induction l as [|x l IH]; intros from index t Ht.
  - cbn. rewrite firstn_nil. reflexivity.
  - cbn [filter_index]. destruct index as [|j].
    + assert (E : (from =? t) = true) by (apply Nat.eqb_eq; lia).
      rewrite E. cbn. apply filter_index_keeps_all. lia.
    + assert (E : (from =? t) = false) by (apply Nat.eqb_neq; lia).
      rewrite E. cbn. f_equal. apply IH. lia.
Qed.

(** X1: removing at an index takes out exactly the code at that index and
    keeps the others in order; an index past the end removes nothing. *)
Theorem remove_click_drops_the_code_at_index :
  forall (index : nat) (s : System),
    isMountedRef (comp s) = true ->
    let before := scannedCodes (comp s) in
    let after := scannedCodes (comp (step (RemoveClicked index) s)) in
    after = firstn index before ++ skipn (S index) before /\
    List.length after =
      (if index <? List.length before then List.length before - 1
       else List.length before) /\
    (if index <? List.length before
     then List.length after < List.length before
     else after = before).
Proof.
  intros index s Hm before after.
  assert (Hafter : after = firstn index before ++ skipn (S index) before).
  { subst after before. unfold step. cbn [handle comp update set_comp].
    rewrite render_codes, removeScannedCode_codes, Hm.
    apply filter_index_drops_one. reflexivity. }
  split; [exact Hafter|]. split.
  - rewrite Hafter, length_app, length_firstn, length_skipn.
    destruct (Nat.ltb_spec index (List.length before)); lia.
  - destruct (Nat.ltb_spec index (List.length before)) as [Hin|Hout].
    + rewrite Hafter, length_app, length_firstn, length_skipn. lia.
    + rewrite Hafter, firstn_all2 by exact Hout.
      rewrite skipn_all2 by lia. apply app_nil_r.
Qed.

Lemma remove_click_drops_the_code_at_index_witness :
  let before := scannedCodes (comp one_code_scanned) in
  let after := scannedCodes (comp (step (RemoveClicked 0) one_code_scanned)) in
  after = firstn 0 before ++ skipn 1 before /\
  List.length after =
    (if 0 <? List.length before then List.length before - 1
     else List.length before) /\
  (if 0 <? List.length before
   then List.length after < List.length before
   else after = before).
Proof.
  apply (remove_click_drops_the_code_at_index 0 one_code_scanned).
  vm_compute. reflexivity.
Defined.

(** *** The attempt counter *)

Lemma on_decode_attempts :
  forall (result : option DecodeResult) (err : option JsError) (c : Component),
    scanAttempts (on_decode result err c) =
    if isMountedRef c then scanAttempts c + 1 else scanAttempts c.
Proof.
  intros result err c. destruct c. unfold on_decode, setState. cbn.
  cases; reflexivity.
Qed.

Lemma on_decode_last :
  forall (result : option DecodeResult) (err : option JsError) (c : Component),
    lastScannedCode (on_decode result err c) =
    if isMountedRef c then
      match result with
      | Some r => getText r
      | None => lastScannedCode c
      end
    else lastScannedCode c.
Proof.
  intros result err c. destruct c. unfold on_decode, setState. cbn.
  cases; reflexivity.
Qed.

Lemma results_attempts :
  forall c c', results c = results c' -> scanAttempts c = scanAttempts c'.
Proof. unfold results. intros c c' H. congruence. Qed.

Lemma results_last :
  forall c c', results c = results c' -> lastScannedCode c = lastScannedCode c'.
Proof. unfold results. intros c c' H. congruence. Qed.

Lemma removeScannedCode_attempts :
  forall (index : nat) (c : Component),
    scanAttempts (removeScannedCode index c) = scanAttempts c.
Proof.
  intros index c. destruct c. unfold removeScannedCode, setState. cbn.
  cases; reflexivity.
Qed.

Lemma attempts_step :
  forall (e : Event) (s : System),
    scanAttempts (comp s) <= scanAttempts (comp (step e s)) /\
    scanAttempts (comp (step e s)) <= scanAttempts (comp s) + decode_deliveries [e].
Proof.
  intros e s. destruct (keeps_results e) eqn:K.
  - rewrite (results_attempts _ _ (results_step e s K)). lia.
  - destruct e; try discriminate K; unfold step; cbn [handle comp update set_comp];
      rewrite (results_attempts _ _ (results_render _)).
    + rewrite on_decode_attempts. destruct (isMountedRef (comp s)); cbn; lia.
    + rewrite removeScannedCode_attempts. lia.
Qed.

Lemma decode_deliveries_cons :
  forall e events,
    decode_deliveries (e :: events) = decode_deliveries [e] + decode_deliveries events.
Proof. intros e events. destruct e; reflexivity. Qed.

(** X2: whatever happens to the component - retries, clean-up and unmount
    included - the attempt counter never goes down, and it rises by no more
    than the number of decode deliveries. *)
Theorem attempt_counter_is_never_reset :
  forall (events : list Event) (s : System),
    scanAttempts (comp s) <= scanAttempts (comp (run events s)) /\
    scanAttempts (comp (run events s)) <= scanAttempts (comp s) + decode_deliveries events.
Proof.
  induction events as [|e events IH]; intros s; [cbn; lia|].
  cbn [run fold_left]. fold (run events (step e s)).
  rewrite decode_deliveries_cons.
  destruct (IH (step e s)) as [Hlo Hhi]. destruct (attempts_step e s) as [Hlo' Hhi'].
  lia.
Qed.

Lemma last_default :
  forall (A : Type) (l : list A) (x d d' : A), last (x :: l) d = last (x :: l) d'.
Proof.
  intros A l. induction l as [|y l IH]; intros x d d'; [reflexivity|].
  cbn [last]. apply IH.
Qed.

Lemma last_cons :
  forall (A : Type) (l : list A) (x d : A), last (x :: l) d = last l x.
Proof.
  intros A l x d. destruct l as [|y l]; [reflexivity|].
  cbn [last]. apply last_default.
Qed.

(** X3: on a mounted component every delivery counts as an attempt, with a
    result or without, and the last code shown is the text of the last
    delivery that had a result. *)
Theorem deliveries_count_attempts_and_show_the_last_text :
  forall (s : System) (attempts : list (option DecodeResult * option JsError)),
    isMountedRef (comp s) = true ->
    let s' := run (deliveries attempts) s in
    scanAttempts (comp s') = scanAttempts (comp s) + List.length attempts /\
    lastScannedCode (comp s') =
      last (decoded_texts attempts) (lastScannedCode (comp s)).
Proof.
  intros s attempts. revert s.
  induction attempts as [|[result err] rest IH]; intros s Hm s'.
  - subst s'. cbn. split; [lia|reflexivity].
  - assert (Hstep : isMountedRef (comp (step (Decoded result err) s)) = true).
    { unfold step. cbn. rewrite render_mounted, on_decode_mounted. exact Hm. }
    subst s'. cbn [deliveries map run fold_left fst snd].
    fold (deliveries rest). fold (run (deliveries rest) (step (Decoded result err) s)).
    destruct (IH _ Hstep) as [Ha Hl]. rewrite Ha, Hl.
    unfold step. cbn [comp update set_comp handle].
    rewrite (results_attempts _ _ (results_render _)),
            (results_last _ _ (results_render _)),
            on_decode_attempts, on_decode_last, Hm.
    split; [cbn; lia|].
    destruct result as [r|]; cbn [decoded_texts]; [|reflexivity].
    symmetry. apply last_cons.
Qed.

Lemma deliveries_count_attempts_and_show_the_last_text_witness :
  let s' := run (deliveries example_attempts) (mount modern) in
  scanAttempts (comp s') = scanAttempts (comp (mount modern)) + List.length example_attempts /\
  lastScannedCode (comp s') =
    last (decoded_texts example_attempts) (lastScannedCode (comp (mount modern))).
Proof.
  apply (deliveries_count_attempts_and_show_the_last_text (mount modern) example_attempts).
  reflexivity.
Defined.

(** *** What [cleanup] achieves *)

Lemma not_in_filtered :
  forall (x : nat) (l : list nat), ~ In x (filter (fun y => negb (y =? x)) l).
Proof.
  intros x l H. apply filter_In in H. destruct H as [_ H].
  rewrite Nat.eqb_refl in H. discriminate H.
Qed.

(** X4: [cleanup] leaves the component released - not initialised, no
    reader, no stream, nothing on the video element - and the stream it
    held is stopped; it cancels neither timers nor suspended calls, running
    it twice is the same as running it once, and a start of the scanning
    that arrives after it finds no reader and does nothing. *)
Theorem cleanup_releases_everything_once :
  forall (s : System),
    cleanup (cleanup s) = cleanup s /\
    isInitializedRef (comp (cleanup s)) = false /\
    codeReaderRef (comp (cleanup s)) = None /\
    streamRef (comp (cleanup s)) = None /\
    (videoRef (comp (cleanup s)) = None \/
     videoRef (comp (cleanup s)) = Some (mkVideo None)) /\
    match streamRef (comp s) with
    | Some stream => ~ In stream (liveStreams (cleanup s))
    | None => liveStreams (cleanup s) = liveStreams s
    end /\
    timers (cleanup s) = timers s /\
    pending (cleanup s) = pending s /\
    startBarcodeScanning (cleanup s) = cleanup s.
Proof.
  intros [c live n p t pg].
  destruct c as [m i cr [stream|] [v|] si sc er hp codes lc att vrdy]; destruct m;
    cbv [cleanup startBarcodeScanning update setState stop_tracks
         set_comp set_liveStreams comp liveStreams nextStream pending timers page
         set_videoReady set_isScanning set_isInitializedRef set_scanIntervalRef
         set_codeReaderRef set_streamRef set_videoRef
         isMountedRef isInitializedRef codeReaderRef streamRef videoRef negb];
    repeat split; auto; apply not_in_filtered.
Qed.

Lemma cleanup_clears_video :
  forall (s : System),
    videoRef (comp (cleanup s)) = None \/
    videoRef (comp (cleanup s)) = Some (mkVideo None).
Proof.
  intros [c live n p t pg].
  destruct c as [m i cr [stream|] [v|] si sc er hp codes lc att vrdy]; destruct m;
    cbv; auto.
Qed.

(** *** What a retry starts *)

Lemma restart_after_cleanup :
  forall (s : System),
    isMountedRef (comp s) = true ->
    mediaDevices (page s) = true ->
    let s' := update render (initializeScanner (update render (cleanup s))) in
    pending s' = pending s ++ [AwaitGetUserMedia] /\
    timers s' = timers s /\
    isInitializedRef (comp s') = true /\
    streamRef (comp s') = None /\
    codeReaderRef (comp s') = Some (mkCodeReader false) /\
    error (comp s') = ""%string /\
    hasPermission (comp s') = hasPermission (comp s) /\
    match streamRef (comp s) with
    | Some stream => ~ In stream (liveStreams s')
    | None => liveStreams s' = liveStreams s
    end.
Proof.
  intros [c live n p t [md lr]] Hm Hmd.
  destruct c as [m i cr sr vr si sc er hp codes lc att vrdy].
  cbn in Hm, Hmd. subst m md.
  destruct sr as [stream|], vr as [v|], hp as [[|]|];
    cbv [cleanup initializeScanner render update setState stop_tracks suspend
         set_comp set_liveStreams set_pending comp liveStreams nextStream pending
         timers page mediaDevices
         set_videoReady set_isScanning set_isInitializedRef set_scanIntervalRef
         set_codeReaderRef set_streamRef set_videoRef set_error
         isMountedRef isInitializedRef codeReaderRef streamRef videoRef
         hasPermission error negb orb];
    repeat split; auto; apply not_in_filtered.
Qed.

(** X5: a retry on a mounted component - the click, then its timer - stops
    the stream that was held and issues exactly one new camera request.
    It cancels none of the requests that are still pending, and it leaves
    [hasPermission] as it was. *)
Theorem retry_issues_one_new_request :
  forall (s : System) (paused : bool),
    isMountedRef (comp s) = true ->
    mediaDevices (page s) = true ->
    let s' := run [RetryClicked; TimerFired (List.length (timers s)) paused] s in
    pending s' = pending s ++ [AwaitGetUserMedia] /\
    timers s' = timers s /\
    isInitializedRef (comp s') = true /\
    streamRef (comp s') = None /\
    codeReaderRef (comp s') = Some (mkCodeReader false) /\
    error (comp s') = ""%string /\
    hasPermission (comp s') = hasPermission (comp s) /\
    match streamRef (comp s) with
    | Some stream => ~ In stream (liveStreams s')
    | None => liveStreams s' = liveStreams s
    end.
Proof.
  intros s paused Hm Hmd s'. subst s'.
  rewrite (retry_is_cleanup_then_initializeScanner s paused Hm).
  apply restart_after_cleanup; assumption.
Qed.

Lemma retry_issues_one_new_request_witness :
  let s' :=
    run [RetryClicked; TimerFired (List.length (timers one_code_scanned)) false]
        one_code_scanned in
  pending s' = pending one_code_scanned ++ [AwaitGetUserMedia] /\
  timers s' = timers one_code_scanned /\
  isInitializedRef (comp s') = true /\
  streamRef (comp s') = None /\
  codeReaderRef (comp s') = Some (mkCodeReader false) /\
  error (comp s') = ""%string /\
  hasPermission (comp s') = hasPermission (comp one_code_scanned) /\
  match streamRef (comp one_code_scanned) with
  | Some stream => ~ In stream (liveStreams s')
  | None => liveStreams s' = liveStreams one_code_scanned
  end.
Proof.
  apply (retry_issues_one_new_request one_code_scanned false).
  - vm_compute. reflexivity.
  - vm_compute. reflexivity.
Defined.

(** *** Runs without overlapping grants *)

(** X7: of the streams granted to the component's own camera requests
    (those of [initializeScanner]): if every live one is the one in
    [streamRef], and from then on no such grant arrives while one of them
    is live, then this stays so, and none of them is ever leaked.  The
    stream that the reader opens for itself is not among them. *)
Theorem streams_stay_owned_without_overlapping_grants :
  forall (events : list Event) (s : System),
    every_live_stream_owned s ->
    grants_find_no_live_stream events s ->
    every_live_stream_owned (run events s) /\
    (forall stream, ~ leaked stream (run events s)).
Proof.
  intros events. induction events as [|e events IH]; intros s H Hg.
  - split; [exact H|]. intros stream [Hin Hne]. apply Hne, H, Hin.
  - destruct Hg as [He Hrest]. cbn [run fold_left].
    apply IH; [|exact Hrest]. apply owned_step; assumption.
Qed.

Lemma streams_stay_owned_without_overlapping_grants_witness :
  every_live_stream_owned (run restarted_once (mount modern)) /\
  (forall stream, ~ leaked stream (run restarted_once (mount modern))).
Proof.
  apply (streams_stay_owned_without_overlapping_grants restarted_once (mount modern)).
  - intros stream Hin. vm_compute in Hin. contradiction.
  - vm_compute. repeat split.
Defined.

(** *** Attempts without a result *)








Example scanning_goes_on :
  codeReaderRef (comp scanning) = Some (mkCodeReader true) /\
  isScanning (comp scanning) = true /\
  comp (run (deliveries (repeat nothing_found 150)) scanning)
  = set_scanAttempts 150 (comp scanning).
Proof. repeat split; vm_compute; reflexivity. Qed.

Example restarted_once_streams :
  liveStreams (run restarted_once (mount modern)) = [1] /\
  streamRef (comp (run restarted_once (mount modern))) = Some 1.
Proof. split; vm_compute; reflexivity. Qed.

End ScannerExtras.

(** ** The page around the scanner *)

Module SiteSpec.
Import Site.

Lemma click_results_shown :
  forall (e : Click) (a : App),
    showResult a || is_empty (scanResults a) = true ->
    showResult (click e a) || is_empty (scanResults (click e a)) = true.
Proof.
  intros e [sc rs sr] H. cbn in H.
  destruct e; cbn; try exact H;
    destruct sc, sr; cbn in *; try exact H; reflexivity.
Qed.

(** X8: whatever is clicked on the page, scan results are kept only while
    the result dialog is shown: when [showResult] is false, [scanResults]
    is empty. *)
Theorem results_are_kept_only_while_shown :
  forall (es : list Click),
    showResult (clicks es initial) || is_empty (scanResults (clicks es initial)) = true.
Proof.
  intros es.
  assert (H : forall es a,
             showResult a || is_empty (scanResults a) = true ->
             showResult (clicks es a) || is_empty (scanResults (clicks es a)) = true).
  { clear. induction es as [|e es IH]; intros a H; [exact H|].
    cbn. apply IH. apply click_results_shown. exact H. }
  apply H. reflexivity.
Qed.

Lemma click_dialog_has_codes :
  forall (e : Click) (a : App),
    carries_codes e = true ->
    showResult a = negb (is_empty (scanResults a)) ->
    showResult (click e a) = negb (is_empty (scanResults (click e a))).
Proof.
  intros e [sc rs sr] He H. cbn in H.
  destruct e as [|results| | |]; cbn; try exact H.
  - destruct sc; cbn; [|exact H]. destruct results; [discriminate He|reflexivity].
  - destruct sc; exact H.
  - destruct sr; cbn; [reflexivity|exact H].
  - destruct sr; cbn; [reflexivity|exact H].
Qed.

(** X9: as long as every [onScan] call carries at least one code - which
    is what the Done button of the scanner ensures - the result dialog is
    shown exactly when there are results: it never comes up empty. *)
Theorem result_dialog_is_shown_exactly_with_results :
  forall (es : list Click),
    forallb carries_codes es = true ->
    showResult (clicks es initial) = negb (is_empty (scanResults (clicks es initial))).
Proof.
  intros es.
  assert (H : forall es a,
             forallb carries_codes es = true ->
             showResult a = negb (is_empty (scanResults a)) ->
             showResult (clicks es a) = negb (is_empty (scanResults (clicks es a)))).
  { clear. induction es as [|e es IH]; intros a Hes H; [exact H|].
    cbn in Hes. apply andb_prop in Hes. destruct Hes as [He Hes].
    cbn. apply IH; [exact Hes|]. apply click_dialog_has_codes; assumption. }
  intros Hes. apply H; [exact Hes|reflexivity].
Qed.

Lemma result_dialog_is_shown_exactly_with_results_witness :
  showResult (clicks [GetStarted; Done ["123"; "456"]%string; ScanAgain; CloseScanner] initial)
  = negb (is_empty (scanResults
       (clicks [GetStarted; Done ["123"; "456"]%string; ScanAgain; CloseScanner] initial))).
Proof.
  apply (result_dialog_is_shown_exactly_with_results
           [GetStarted; Done ["123"; "456"]%string; ScanAgain; CloseScanner]).
  reflexivity.
Defined.

(** X10: in every state the scanner can reach, the Done button calls
    [onScan] exactly when there are codes, with the scanned codes as they
    stand: at least one, none twice.  On a page that shows the scanner the
    call closes the scanner and opens the result dialog with these codes;
    without codes the click changes nothing. *)
Theorem done_hands_over_the_distinct_codes :
  forall (pg : Scanner.Page) (events : list Scanner.Event) (a : App),
    showScanner a = true ->
    let c := Scanner.comp (Scanner.run events (Scanner.mount pg)) in
    match handleFinishScanning c with
    | Some results =>
        results = Scanner.scannedCodes c /\ results <> [] /\ NoDup results /\
        clicks (done_click c) a = mkApp false results true
    | None =>
        Scanner.scannedCodes c = [] /\ clicks (done_click c) a = a
    end.
Proof.
  intros pg events a Ha c.
  assert (Hnd : NoDup (Scanner.scannedCodes c)).
  { apply ScannerSpec.NoDup_run. destruct pg as [[] ?]; constructor. }
  unfold done_click, handleFinishScanning.
  destruct (Scanner.scannedCodes c) as [|x l] eqn:E; cbn.
  - auto.
  - rewrite Ha. repeat split; auto. discriminate.
Qed.

Lemma done_hands_over_the_distinct_codes_witness :
  let c := Scanner.comp
             (Scanner.run (Scanner.deliveries Scanner.example_attempts)
                (Scanner.mount Scanner.modern)) in
  match handleFinishScanning c with
  | Some results =>
      results = Scanner.scannedCodes c /\ results <> [] /\ NoDup results /\
      clicks (done_click c) (handleGetStarted initial) = mkApp false results true
  | None =>
      Scanner.scannedCodes c = [] /\
      clicks (done_click c) (handleGetStarted initial) = handleGetStarted initial
  end.
Proof.
  apply (done_hands_over_the_distinct_codes Scanner.modern
           (Scanner.deliveries Scanner.example_attempts) (handleGetStarted initial)).
  reflexivity.
Defined.

End SiteSpec.

(** ** More about the negotiation *)

Module NegotiationExtras.
Import Negotiation NegotiationNotions NegotiationSpec.

(** X12: a call of [initializeScanner] that ends by showing an error leaves
    the component in the error state with the message behind the fixed
    prefix, keeps no stream, and clears [isInitializedRef] while the
    component is mounted - so the guard of the next call lets it
    through. *)
Theorem initializeScanner_failure_can_be_retried :
  forall (World : Type) (b : Browser World) (env : Env) (options : list Constraints)
         (c c1 : Component) (w w1 : World) (err : JsError),
    initializeScanner b env options c w = (c1, w1, Surfaced err) ->
    isInitializedRef c1 || negb (isMountedRef b w1) = false /\
    cameraStatus c1 = StatusError /\
    hasPermission c1 = Some false /\
    error c1 = ("Camera initialization failed: " ++ message err)%string /\
    streamRef c1 = streamRef c.
Proof.
  intros World b env options c c1 w w1 err H.
  unfold initializeScanner, on_error in H.
  destruct (isInitializedRef c || negb (isMountedRef b w)); [discriminate H|].
  destruct (isMountedRef b w) eqn:Hm;
    destruct (negb (isSecureContext env)); cbn in H; try discriminate H;
    try (injection H as <- <- <-; rewrite Hm; repeat split; reflexivity);
    destruct (negb (mediaDevices env) || negb (mediaDevices_getUserMedia env));
    cbn in H; try discriminate H;
    try (injection H as <- <- <-; rewrite Hm; repeat split; reflexivity).
  all: destruct (acquire (getUserMedia b) options w) as [[st|e] w'];
    destruct (isMountedRef b w') eqn:Hm'; cbn in H; try discriminate H.
  all: injection H as <- <- <-; rewrite Hm'; repeat split; reflexivity.
Qed.

Lemma initializeScanner_failure_can_be_retried_witness :
  isInitializedRef
    (mkComponent false None StatusError (Some false)
       "Camera initialization failed: Permission denied")
  || negb (isMountedRef denying_browser 4) = false /\
  cameraStatus
    (mkComponent false None StatusError (Some false)
       "Camera initialization failed: Permission denied") = StatusError /\
  hasPermission
    (mkComponent false None StatusError (Some false)
       "Camera initialization failed: Permission denied") = Some false /\
  error
    (mkComponent false None StatusError (Some false)
       "Camera initialization failed: Permission denied")
  = ("Camera initialization failed: " ++ message permission_denied)%string /\
  streamRef
    (mkComponent false None StatusError (Some false)
       "Camera initialization failed: Permission denied") = streamRef initial.
Proof.
  apply (initializeScanner_failure_can_be_retried nat denying_browser
           everything_there constraintOptions initial _ 0 4 permission_denied).
  vm_compute. reflexivity.
Defined.



(** X14: an error thrown by the acquisition is an error that a camera
    request of this run was rejected with, except for an empty option
    list, where it is the fixed "Failed to access camera with all
    constraint options". *)
Theorem acquire_throws_a_request_error_or_the_fallback :
  forall (World : Type) (gum : Constraints -> World -> (Stream + JsError) * World)
         (options : list Constraints) (w : World) (err : JsError),
    fst (acquire (recording gum) options (w, [])) = inr err ->
    (options = [] /\ err = all_options_failed) \/
    (exists c, In (c, inr err) (snd (snd (acquire (recording gum) options (w, []))))).
Proof.
  intros World gum options w err H.
  destruct (acquire_recording World gum options w []) as (cs & Hrun & _ & Hshape).
  rewrite Hrun in *. cbn [fst snd app] in *.
  unfold acquire in H.
  destruct (try_options gum options None w) as [[[s|] le] w']; cbn in *.
  - discriminate H.
  - destruct Hshape as (_ & _ & [(_ & Ho & Hle)|(po & c & pre & e & _ & Hc & Hle)]).
    + left. subst le. injection H as <-. auto.
    + right. subst le cs. injection H as <-. exists c.
      apply in_or_app. right. left. reflexivity.
Qed.

Lemma acquire_throws_a_request_error_or_the_fallback_witness :
  (constraintOptions = [] /\ permission_denied = all_options_failed) \/
  (exists c,
      In (c, inr permission_denied)
         (snd (snd (acquire (recording (getUserMedia denying_browser))
                      constraintOptions (0, []))))).
Proof.
  apply (acquire_throws_a_request_error_or_the_fallback nat
           (getUserMedia denying_browser) constraintOptions 0 permission_denied).
  vm_compute. reflexivity.
Defined.

End NegotiationExtras.

(** ** Getting the video to play *)

Module VideoStartupSpec.
Import VideoStartup.

Section Strategies.

Context {World : Type}.
Variable v : VideoElement World.

Lemma prepare_journal :
  forall (strategy : list Prepare) (w : World) (j : list Done),
    fold_left (fun w p => prepare (journaling v) p w) strategy (w, j) =
    (fold_left (fun w p => prepare v p w) strategy w, j ++ map Prepared strategy).
Proof.
  induction strategy as [|p rest IH]; intros w j.
  - cbn. rewrite app_nil_r. reflexivity.
  - cbn [fold_left map]. cbn [journaling prepare fst snd]. rewrite IH.
    rewrite <- app_assoc. reflexivity.
Qed.

Lemma try_strategies_journal :
  forall (strategies : list (list Prepare)) (i n : nat) (playSuccess : bool)
         (w : World) (j : list Done),
    n = i + List.length strategies ->
    fst (try_strategies (journaling v) strategies i n playSuccess (w, j)) =
    fst (try_strategies v strategies i n playSuccess w) /\
    match strategies with
    | [] => try_strategies (journaling v) strategies i n playSuccess (w, j)
            = (playSuccess, (w, j))
    | _ :: _ =>
        fst (try_strategies (journaling v) strategies i n playSuccess (w, j)) = true /\
        exists k ok,
          k < List.length strategies /\
          snd (snd (try_strategies (journaling v) strategies i n playSuccess (w, j)))
          = j ++ attempts strategies k ok /\
          (ok = true \/ S k = List.length strategies)
    end.
Proof.
  induction strategies as [|strategy rest IH]; intros i n playSuccess w j Hn.
  - split; reflexivity.
  - cbn [try_strategies]. rewrite prepare_journal.
    cbn [journaling play fst snd].
    destruct (play v (fold_left (fun w p => prepare v p w) strategy w))
      as [[[]|e] w2] eqn:P; cbn [settled_ok].
    + split; [reflexivity|]. split; [reflexivity|].
      exists 0, true. cbn [List.length attempts fst snd].
      split; [lia|]. split; [rewrite <- app_assoc; reflexivity|left; reflexivity].
    + destruct (IH (S i) n (if i =? n - 1 then true else playSuccess) w2
                  ((j ++ map Prepared strategy) ++ [Played false])) as [Hagree Hrest].
      { cbn in Hn. lia. }
      split; [exact Hagree|].
      destruct rest as [|next rest'].
      * rewrite Hrest. cbn [fst snd List.length attempts].
        assert (E : (i =? n - 1) = true) by (apply Nat.eqb_eq; cbn in Hn; lia).
        rewrite E. split; [reflexivity|].
        exists 0, false. split; [lia|].
        split; [rewrite <- app_assoc; reflexivity|right; reflexivity].
      * destruct Hrest as (Htrue & k & ok & Hk & Hj & Hlast).
        split; [exact Htrue|].
        exists (S k), ok. split; [cbn in *; lia|].
        split; [|destruct Hlast as [->|Hl]; [left; reflexivity|right; cbn in *; lia]].
        rewrite Hj. cbn [attempts]. rewrite <- !app_assoc. reflexivity.
Qed.

(** X15: the play strategies are run in their order - the preparations of
    each, then [video.play()] - and a play that succeeds is the last thing
    done; a play that fails is followed by the next strategy, if there is
    one.  Whatever the plays do, [playSuccess] is true after the loop
    unless there is no strategy at all. *)
Theorem play_strategies_run_in_order_and_never_give_up :
  forall (strategies : list (list Prepare)) (w : World),
    let run := play_with_strategies (journaling v) strategies (w, []) in
    fst run = fst (play_with_strategies v strategies w) /\
    match strategies with
    | [] => fst run = false /\ snd (snd run) = []
    | _ :: _ =>
        fst run = true /\
        exists k ok,
          k < List.length strategies /\
          snd (snd run) = attempts strategies k ok /\
          (ok = true \/ S k = List.length strategies)
    end.
Proof.
  intros strategies w run. subst run. unfold play_with_strategies.
  destruct (try_strategies_journal strategies 0 (List.length strategies) false w [])
    as [Hagree Hshape]; [reflexivity|].
  split; [exact Hagree|].
  destruct strategies as [|strategy rest].
  - rewrite Hshape. split; reflexivity.
  - exact Hshape.
Qed.

End Strategies.

Example play_after_reload :
  play_with_strategies (journaling needs_reload) playStrategies (false, []) =
  (true,
   (true,
    [ Played false;
      Prepared SetMuted; Played false;
      Prepared Load; Prepared (Wait 500); Played true ])) /\
  play_with_strategies (journaling never_plays) playStrategies (tt, []) =
  (true,
   (tt,
    [ Played false;
      Prepared SetMuted; Played false;
      Prepared Load; Prepared (Wait 500); Played false ])).
Proof. split; vm_compute; reflexivity. Qed.

(** *** Polling for the video *)

Lemma checkVideoReady_from :
  forall (fuel : nat) (readings : nat -> Reading) (k0 k : nat),
    (forall j, k0 <= j -> j < k -> is_ready (readings j) = false) ->
    is_ready (readings k) = true ->
    k0 <= k ->
    k - k0 < fuel ->
    checkVideoReady fuel readings k0 = ReadyAt k.
Proof.
  induction fuel as [|fuel IH]; intros readings k0 k Hbefore Hk Hle Hfuel; [lia|].
  cbn [checkVideoReady].
  destruct (Nat.eq_dec k0 k) as [->|Hne].
  - rewrite Hk. reflexivity.
  - rewrite (Hbefore k0) by lia.
    apply IH; try assumption; try lia.
    intros j Hj1 Hj2. apply Hbefore; lia.
Qed.

(** X16: if the video is found ready at check number [k] and at no earlier
    check, the polling declares it ready at that check, after [k]
    re-polls - however large [k] is, given that many checks. *)
Theorem checkVideoReady_stops_at_the_first_ready_check :
  forall (readings : nat -> Reading) (k fuel : nat),
    (forall j, j < k -> is_ready (readings j) = false) ->
    is_ready (readings k) = true ->
    k < fuel ->
    checkVideoReady fuel readings 0 = ReadyAt k.
Proof.
  intros readings k fuel Hbefore Hk Hfuel.
  apply checkVideoReady_from; try assumption; try lia.
  intros j _ Hj. apply Hbefore. exact Hj.
Qed.

Lemma checkVideoReady_stops_at_the_first_ready_check_witness :
  checkVideoReady 10 slow_video 0 = ReadyAt 3.
Proof.
  apply (checkVideoReady_stops_at_the_first_ready_check slow_video 3 10).
  - intros j Hj. destruct j as [|[|[|j]]]; [reflexivity|reflexivity|reflexivity|lia].
  - reflexivity.
  - lia.
Defined.

(** X17: the polling has no bound of its own: for a video that is never
    ready - no dimensions, or paused - it is still polling after any
    number of checks. *)
Theorem checkVideoReady_polls_for_ever_if_never_ready :
  forall (readings : nat -> Reading) (fuel k0 : nat),
    (forall j, is_ready (readings j) = false) ->
    checkVideoReady fuel readings k0 = StillPolling.
Proof.
  intros readings fuel. induction fuel as [|fuel IH]; intros k0 H; [reflexivity|].
  cbn [checkVideoReady]. rewrite H. apply IH. exact H.
Qed.

Lemma checkVideoReady_polls_for_ever_if_never_ready_witness :
  checkVideoReady 1000 (fun _ => mkReading 1280 720 true) 0 = StillPolling.
Proof.
  apply (checkVideoReady_polls_for_ever_if_never_ready
           (fun _ => mkReading 1280 720 true) 1000 0).
  intros j. reflexivity.
Defined.

End VideoStartupSpec.

(** ** More about the HTTP trigger *)

Module HttpTriggerExtras.
Import HttpTrigger.

Section Handler.

Variable Num : Type.
Variable num_truthy : Num -> bool.
Variable num_to_string : Num -> string.

Lemma lookup_missing :
  forall (key : string) (fields : list (string * JsValue Num)),
    has_key Num key fields = false -> lookup Num key fields = JUndefined.
Proof.
  intros key fields. induction fields as [|[k x] rest IH]; intros H; [reflexivity|].
  cbn in *. destruct (k =? key)%string; [discriminate H|]. apply IH. exact H.
Qed.

(** X18: a request without a body, or with a body that has no [barcode]
    field - a JSON object without that key, or a string, number, boolean
    or array - is always answered 400 with
    "Please pass barcode in request body". *)
Theorem missing_barcode_is_rejected :
  forall (context : Context) (req : Request Num),
    body_absent (body req) || lacks_barcode_field (body req) = true ->
    res (handler Num num_truthy num_to_string context req) =
    Some (mkResponse 400 "Please pass barcode in request body"%string).
Proof.
  intros context [m q h b] H. unfold handler, module_exports. cbn [body] in *.
  destruct b as [| |bo|n|s|items|fields]; cbn in *;
    try reflexivity;
    try (destruct (negb _); reflexivity).
  rewrite orb_true_r in H || idtac.
  rewrite lookup_missing; [cbn; reflexivity|].
  destruct (has_key Num "barcode" fields); [discriminate H|reflexivity].
Qed.

Lemma substring_all :
  forall (s : string), substring 0 (String.length s) s = s.
Proof.
  induction s as [|a s IH]; [reflexivity|]. cbn. rewrite IH. reflexivity.
Qed.

(** X19: a JSON body whose [barcode] is a non-empty string is answered 200
    with that string, unchanged, right behind "Received barcode: ":
    dropping the 18 characters of the prefix gives the barcode back. *)
Theorem string_barcode_is_echoed :
  forall (context : Context) (req : Request Num)
         (fields : list (string * JsValue Num)) (s : string),
    body req = JObj fields ->
    lookup Num "barcode" fields = JStr s ->
    (s =? "")%string = false ->
    res (handler Num num_truthy num_to_string context req) =
    Some (mkResponse 200 ("Received barcode: " ++ s)%string) /\
    substring 18 (String.length s) ("Received barcode: " ++ s)%string = s.
Proof.
  intros context [m q h b] fields s Hb Hl Hs. cbn [body] in Hb. subst b.
  unfold handler, module_exports. cbn [body truthy barcode_of negb orb].
  rewrite Hl. cbn [truthy to_string]. rewrite Hs. cbn [negb orb fst].
  split; [reflexivity|]. cbn. apply substring_all.
Qed.

End Handler.

Lemma missing_barcode_is_rejected_witness :
  res (handler Z z_truthy z_to_string no_context
         (post (JObj [("code", JStr "4006381333931")]%string))) =
  Some (mkResponse 400 "Please pass barcode in request body"%string).
Proof.
  apply (missing_barcode_is_rejected Z z_truthy z_to_string no_context
           (post (JObj [("code", JStr "4006381333931")]%string))).
  reflexivity.
Defined.

Lemma string_barcode_is_echoed_witness :
  res (handler Z z_truthy z_to_string no_context
         (post (JObj [("shop", JStr "a"); ("barcode", JStr "4006381333931")]%string))) =
  Some (mkResponse 200 ("Received barcode: " ++ "4006381333931")%string) /\
  substring 18 (String.length "4006381333931")
    ("Received barcode: " ++ "4006381333931")%string = "4006381333931"%string.
Proof.
  apply (string_barcode_is_echoed Z z_truthy z_to_string no_context
           (post (JObj [("shop", JStr "a"); ("barcode", JStr "4006381333931")]%string))
           [("shop", JStr "a"); ("barcode", JStr "4006381333931")]%string
           "4006381333931"%string).
  - reflexivity.
  - reflexivity.
  - reflexivity.
Defined.

End HttpTriggerExtras.
